(** * The Blinkt controller: resource tracker and display synchronizer

    A shallow embedding of [controller/controller.go].  The controller
    keeps an ordered slice of resources, mutated by the three informer
    callbacks, and repaints an eight pixel display after each mutation.

    - Go [int] values (the walk index, pixel numbers, repeat counts) and
      [time.Duration] are integers in [Z];
    - the [float64] brightness is a primitive binary64 float, only ever
      passed along;
    - a [*resource] into the slice is the index of the element, [nil] is
      [None];
    - a run-time panic (nil dereference, index out of range,
      [log.Panicln]) is the [Panic] result;
    - the calls made on the [blinkt.Blinkt] handle are collected, in
      order, in a list.  Log output is not modelled, and the mutex is
      held for the whole of each callback, so callbacks are atomic
      transitions. *)

From Stdlib Require Import ZArith Floats.PrimFloat.
From stdpp Require Import base tactics option list list_numbers strings.
From Equations Require Import Equations.
From Equations.Prop Require Import Logic.

Local Open Scope Z_scope.

(** ** Data model *)

(** [const ( added = iota; updated; deleted; unchanged )] *)
Inductive rstate := added | updated | deleted | unchanged.

#[global] Instance rstate_eq_dec : EqDecision rstate.
Proof. solve_decision. Defined.

(** [type resource struct { key string; color string; state int }] *)
Record resource := Resource { key : string; color : string; state : rstate }.

(** [type ControllerObj struct]: the brightness and the slice.  The mutex
    has no content and the display handle is represented by the calls
    made on it. *)
Record ControllerObj := Controller {
  brightness : float;
  resourceList : list resource
}.

(** Calls on the display handle: [Flash(led, color, brightness, times,
    duration)], [Set(led, color, brightness)] and [Show()]. *)
Inductive call :=
| blinkt_Flash (led : Z) (c : string) (b : float) (times : Z) (duration : Z)
| blinkt_Set (led : Z) (c : string) (b : float)
| blinkt_Show.

(** [time.Millisecond], a [Duration] counted in nanoseconds. *)
Definition Millisecond : Z := 1000000.

(** Outcome of code that may panic. *)
Inductive result (A : Type) :=
| Ok (a : A)
| Panic.
Arguments Ok {A} a.
Arguments Panic {A}.

#[global] Instance result_bind : MBind result := λ A B f m,
  match m with
  | Ok a => f a
  | Panic => Panic
  end.

(** The state of the [for] loop of [updateBlinkt]: the index [i], the
    slice [o.resourceList] and the display calls issued so far. *)
Record walk := Walk { idx : Z; coll : list resource; ops : list call }.

Definition len (l : list resource) : Z := Z.of_nat (length l).

(** [o.resourceList[i]], bounds checked as Go does. *)
Definition index (l : list resource) (i : Z) : result resource :=
  if decide (0 ≤ i < len l)
  then match l !! Z.to_nat i with Some r => Ok r | None => Panic end
  else Panic.

(** [r.state = unchanged] through the pointer [r]. *)
Definition steady (r : resource) : resource :=
  {| key := key r; color := color r; state := unchanged |}.

(** [func (o *ControllerObj) getResource(key string) *resource]: the
    position of the first record with that key, scanning from [i]. *)
Fixpoint getResource_from (i : nat) (k : string) (l : list resource) : option nat :=
  match l with
  | [] => None
  | r :: l' => if decide (key r = k) then Some i else getResource_from (S i) k l'
  end.

Definition getResource (k : string) (l : list resource) : option nat :=
  getResource_from 0 k l.

(** The body of the walk loop: the [switch r.state] at index [i]. *)
Definition body (b : float) (w : walk) : result walk :=
  let i := idx w in
  r ← index (coll w) i;
  match state r with
  | added | updated =>
      Ok {| idx := i;
            coll := <[Z.to_nat i := steady r]> (coll w);
            ops := ops w ++
                   (if decide (i < 8)
                    then [blinkt_Flash i (color r) b 2 (50 * Millisecond);
                          blinkt_Set i (color r) b]
                    else []) |}
  | deleted =>
      Ok {| idx := i - 1;
            coll := take (Z.to_nat i) (coll w) ++ drop (Z.to_nat (i + 1)) (coll w);
            ops := ops w ++
                   (if decide (i < 8)
                    then [blinkt_Flash i (color r) b 2 (50 * Millisecond)]
                    else []) |}
  | unchanged =>
      Ok {| idx := i;
            coll := coll w;
            ops := ops w ++
                   (if decide (i < 8) then [blinkt_Set i (color r) b] else []) |}
  end.

(** The loop's post statement [i++]. *)
Definition post (w : walk) : walk :=
  {| idx := idx w + 1; coll := coll w; ops := ops w |}.

(** [for ; i < len(o.resourceList); i++ { body }] *)
Equations? loop (b : float) (w : walk) : result walk
  by wf (Z.to_nat (len (coll w) - idx w)) lt :=
loop b w with decide (idx w < len (coll w)) := {
  | right _ => Ok w
  | left Hlt with inspect (body b w) := {
      | exist _ Panic _ => Panic
      | exist _ (Ok w') Hb => loop b (post w') } }.
Proof.
  clear loop. revert Hb. unfold body, index, mbind, result_bind, len in *.
  destruct (decide _) as [Hi|]; [|done].
  destruct (coll w !! Z.to_nat (idx w)) as [r|]; [|done].
  destruct (state r); intros [= <-]; simpl;
    rewrite ?length_insert, ?length_app, ?length_take, ?length_drop; lia.
Qed.

(** The loop states the walk goes through, starting from [w]. *)
Inductive visits (b : float) (w : walk) : walk → Prop :=
| visits_first : visits b w w
| visits_next w1 w2 :
    visits b w w1 →
    idx w1 < len (coll w1) →
    body b w1 = Ok w2 →
    visits b w (post w2).

(** What a walk leaves of a slice and what it calls, by recursion on the
    part of the slice still to be visited; [loop] is shown equal to these
    below. *)
Definition settled (l : list resource) : list resource :=
  steady <$> filter (λ r, state r ≠ deleted) l.

Fixpoint walk_calls (b : float) (i : Z) (l : list resource) : list call :=
  match l with
  | [] => []
  | r :: l' =>
      match state r with
      | added | updated =>
          (if decide (i < 8)
           then [blinkt_Flash i (color r) b 2 (50 * Millisecond);
                 blinkt_Set i (color r) b]
           else []) ++ walk_calls b (i + 1) l'
      | deleted =>
          (if decide (i < 8)
           then [blinkt_Flash i (color r) b 2 (50 * Millisecond)]
           else []) ++ walk_calls b i l'
      | unchanged =>
          (if decide (i < 8) then [blinkt_Set i (color r) b] else [])
          ++ walk_calls b (i + 1) l'
      end
  end.

(** The calls that show the records [l] in the slots from [i] on, one
    [Set] for each record that has a slot, without flashing; the walk is
    shown to issue these for records that are all [unchanged]. *)
Definition paint (b : float) (i : Z) (l : list resource) : list call :=
  imap (λ j r, blinkt_Set (i + Z.of_nat j) (color r) b) (take (Z.to_nat (8 - i)) l).

(** ** The display, as far as the controller relies on it *)

Record pixel := Pixel { px_color : string; px_brightness : float }.

(** The pixel buffer the driver keeps and the frame last committed. *)
Record display := Display { buffer : Z → pixel; shown : Z → pixel }.

(** ** Sample event objects, used to run the callbacks on concrete input:
    an object is its namespace/name key and the colour it is classified
    as. *)
Definition sample := (string * string)%type.
Definition sample_key (x : sample) : option string := Some x.1.
Definition sample_color (x : sample) : string := x.2.

(** Eight tracked records, a display that shows them, and a [Flash] that
    leaves its slot dark. *)
Definition sample_eight : list resource :=
  [Resource "p0" "red" unchanged; Resource "p1" "red" unchanged;
   Resource "p2" "red" unchanged; Resource "p3" "red" unchanged;
   Resource "p4" "red" unchanged; Resource "p5" "red" unchanged;
   Resource "p6" "red" unchanged; Resource "p7" "red" unchanged].

Definition sample_display : display :=
  {| buffer := λ _, Pixel "red" 0.5; shown := λ _, Pixel "red" 0.5 |}.

Definition sample_flash (d : display) (i : Z) (c : string) (b : float) (n t : Z)
  : display :=
  {| buffer := λ j, if decide (j = i) then Pixel "000000" 0 else buffer d j;
     shown := λ j, if decide (j = i) then Pixel "000000" 0 else buffer d j |}.

Section controller.

(** [blinkt.Off], a colour constant of the display library. *)
Variable Off : string.

(** The objects the informer delivers, the result of
    [cache.DeletionHandlingMetaNamespaceKeyFunc] on them ([None] when it
    returns an error), and the [colorFunc] passed to [Watch]. *)
Variable Obj : Type.
Variable MetaNamespaceKey : Obj → option string.
Variable colorFunc : Obj → string.

(** What [Flash] leaves in the display; the controller does not depend
    on it. *)
Variable flash : display → Z → string → float → Z → Z → display.

(** Modelled from the spec: the display driver is not part of this
    repository; [Set(slotIndex, color, brightness)] assigns one slot of
    the frame under construction and [Show()] commits that frame. *)
Definition perform (d : display) (c : call) : display :=
  match c with
  | blinkt_Flash i c b n t => flash d i c b n t
  | blinkt_Set i c b =>
      {| buffer := λ j, if decide (j = i) then Pixel c b else buffer d j;
         shown := shown d |}
  | blinkt_Show => {| buffer := buffer d; shown := buffer d |}
  end.

Definition perform_all (d : display) (cs : list call) : display :=
  foldl perform d cs.

(** [func NewController(brightness float64) Controller] *)
Definition NewController (b : float) : ControllerObj :=
  {| brightness := b; resourceList := [] |}.

(** [func keyFunc(obj interface{}) string] *)
Definition keyFunc (obj : Obj) : result string :=
  match MetaNamespaceKey obj with
  | Some k => Ok k
  | None => Panic
  end.

(** [for ; i < 8; i++ { o.blinkt.Set(i, blinkt.Off, 0) }]: one call for
    each of [i], [i+1], ..., [7]. *)
Definition clear (i : Z) : list call :=
  (λ j, blinkt_Set j Off 0%float) <$> seqZ i (8 - i).

(** [func (o *ControllerObj) updateBlinkt()] *)
Definition updateBlinkt (o : ControllerObj) : result (ControllerObj * list call) :=
  w ← loop (brightness o) {| idx := 0; coll := resourceList o; ops := [] |};
  Ok ({| brightness := brightness o; resourceList := coll w |},
      ops w ++ clear (idx w) ++ [blinkt_Show]).

(** [AddFunc: func(obj interface{})] *)
Definition AddFunc (o : ControllerObj) (obj : Obj) : result (ControllerObj * list call) :=
  k ← keyFunc obj;
  let c := colorFunc obj in
  let r := {| key := k; color := c; state := added |} in
  updateBlinkt {| brightness := brightness o;
                  resourceList := resourceList o ++ [r] |}.

(** [UpdateFunc: func(oldObj, newObj interface{})] *)
Definition UpdateFunc (o : ControllerObj) (oldObj newObj : Obj)
  : result (ControllerObj * list call) :=
  k ← keyFunc newObj;
  let c := colorFunc newObj in
  match getResource k (resourceList o) with
  | None => Panic
  | Some p =>
      match resourceList o !! p with
      | None => Panic
      | Some r =>
          if decide (c = color r) then Ok (o, [])
          else updateBlinkt
                 {| brightness := brightness o;
                    resourceList :=
                      <[p := {| key := key r; color := c; state := updated |}]>
                        (resourceList o) |}
      end
  end.

(** [DeleteFunc: func(obj interface{})] *)
Definition DeleteFunc (o : ControllerObj) (obj : Obj) : result (ControllerObj * list call) :=
  k ← keyFunc obj;
  match getResource k (resourceList o) with
  | None => Panic
  | Some p =>
      match resourceList o !! p with
      | None => Panic
      | Some r =>
          updateBlinkt
            {| brightness := brightness o;
               resourceList :=
                 <[p := {| key := key r; color := color r; state := deleted |}]>
                   (resourceList o) |}
      end
  end.

(** The informer's notifications and the controller's reaction to a
    sequence of them. *)
Inductive event :=
| Add (obj : Obj)
| Update (oldObj newObj : Obj)
| Delete (obj : Obj).

Definition handle (o : ControllerObj) (e : event) : result (ControllerObj * list call) :=
  match e with
  | Add obj => AddFunc o obj
  | Update oldObj newObj => UpdateFunc o oldObj newObj
  | Delete obj => DeleteFunc o obj
  end.

Fixpoint run (o : ControllerObj) (es : list event) : result (ControllerObj * list call) :=
  match es with
  | [] => Ok (o, [])
  | e :: es' =>
      '(o1, cs1) ← handle o e;
      '(o2, cs2) ← run o1 es';
      Ok (o2, cs1 ++ cs2)
  end.

(** Every [Add] in the sequence brings a key that is not tracked when it
    arrives. *)
Fixpoint fresh_adds (o : ControllerObj) (es : list event) : Prop :=
  match es with
  | [] => True
  | e :: es' =>
      (∀ obj k, e = Add obj → MetaNamespaceKey obj = Some k →
                k ∉ key <$> resourceList o) ∧
      match handle o e with
      | Ok (o1, _) => fresh_adds o1 es'
      | Panic => True
      end
  end.

(** The calls a render pass may make for the collection [l] at
    brightness [b]: a flash of 2 cycles of 50 ms or a steady colour, in
    the colour of a record of [l], on a slot from 0 to 7; the clearing of
    such a slot; the commit. *)
Definition expected_call (b : float) (l : list resource) (c : call) : Prop :=
  match c with
  | blinkt_Flash i c' b' n t =>
      0 ≤ i < 8 ∧ b' = b ∧ n = 2 ∧ t = 50 * Millisecond ∧
      ∃ r, r ∈ l ∧ c' = color r
  | blinkt_Set i c' b' =>
      0 ≤ i < 8 ∧
      ((b' = b ∧ ∃ r, r ∈ l ∧ c' = color r) ∨ (c' = Off ∧ b' = 0%float))
  | blinkt_Show => True
  end.

(** ** The walk loop *)

Lemma loop_step b w :
  loop b w =
  if decide (idx w < len (coll w)) then w' ← body b w; loop b (post w') else Ok w.
Proof.
  funelim (loop b w).
  - by rewrite Heq.
  - rewrite Heq, Hb. done.
  - rewrite Heq, e. done.
Qed.

Lemma index_app_middle pre r rest :
  index (pre ++ r :: rest) (len pre) = Ok r.
Proof.
  unfold index, len. rewrite length_app. simpl.
  rewrite decide_True by lia.
  rewrite Nat2Z.id. rewrite (list_lookup_middle pre rest r (length pre) eq_refl). done.
Qed.

Lemma settled_cons r l :
  settled (r :: l) =
  if decide (state r = deleted) then settled l else steady r :: settled l.
Proof.
  unfold settled. rewrite filter_cons.
  destruct (decide (state r = deleted)) as [E|E].
  - rewrite decide_False; [done|]. intros H. by apply H.
  - rewrite decide_True; done.
Qed.

Lemma settled_app l1 l2 : settled (l1 ++ l2) = settled l1 ++ settled l2.
Proof. unfold settled. by rewrite filter_app, fmap_app. Qed.

(** The loop, started after a visited prefix [pre], leaves the prefix
    alone, keeps the records of [rest] that are not [deleted], in their
    order and marked [unchanged], and issues [walk_calls]. *)
Lemma loop_spec b rest : ∀ pre tr,
  loop b {| idx := len pre; coll := pre ++ rest; ops := tr |} =
  Ok {| idx := len (pre ++ settled rest);
        coll := pre ++ settled rest;
        ops := tr ++ walk_calls b (len pre) rest |}.
Proof.
  induction rest as [|r rest IH]; intros pre tr.
  - rewrite loop_step. simpl. rewrite !app_nil_r.
    rewrite decide_False by lia. done.
  - rewrite loop_step. cbn [idx coll ops].
    rewrite decide_True by (unfold len; rewrite length_app; simpl; lia).
    unfold body. cbn [idx coll ops]. rewrite index_app_middle.
    cbn [mbind result_bind]. rewrite settled_cons.
    assert (Hn : Z.to_nat (len pre) = length pre) by (unfold len; lia).
    assert (Hs : len pre + 1 = len (pre ++ [steady r])).
    { unfold len. rewrite length_app. simpl. lia. }
    destruct (state r) eqn:Er; cbn [walk_calls]; rewrite ?Er;
      cbn [mbind result_bind]; unfold post; cbn [idx coll ops].
    1, 2: rewrite Hn, insert_app_r_alt, Nat.sub_diag by lia; simpl;
          rewrite (cons_middle (steady r) pre rest), !app_assoc, Hs, IH;
          by rewrite <-!app_assoc.
    + simpl.
      replace (Z.to_nat (len pre + 1)) with (S (length pre)) by (unfold len; lia).
      rewrite Hn, take_app_length.
      rewrite (cons_middle r pre rest), app_assoc, drop_app_length'
        by (rewrite length_app; simpl; lia).
      replace (len pre - 1 + 1) with (len pre) by lia.
      rewrite IH, <-!app_assoc. done.
    + simpl.
      assert (Hr : r = steady r) by (destruct r; simpl in *; by subst).
      rewrite <-Hr in Hs |- *.
      rewrite (cons_middle r pre rest), !app_assoc, Hs, IH.
      rewrite <-!app_assoc. done.
Qed.

Lemma loop_from b w :
  0 ≤ idx w ≤ len (coll w) →
  loop b w =
  Ok {| idx := len (take (Z.to_nat (idx w)) (coll w)
                    ++ settled (drop (Z.to_nat (idx w)) (coll w)));
        coll := take (Z.to_nat (idx w)) (coll w)
                ++ settled (drop (Z.to_nat (idx w)) (coll w));
        ops := ops w ++ walk_calls b (idx w) (drop (Z.to_nat (idx w)) (coll w)) |}.
Proof.
  destruct w as [i l tr]. cbn [idx coll ops]. unfold len. intros Hi.
  pose proof (loop_spec b (drop (Z.to_nat i) l) (take (Z.to_nat i) l) tr) as H.
  rewrite take_drop in H.
  replace (len (take (Z.to_nat i) l)) with i in H
    by (unfold len; rewrite length_take; lia).
  done.
Qed.

(** The render pass never panics; it returns the surviving records in
    their order, all [unchanged], after the calls of the walk, the
    clearing calls and the commit. *)
Lemma updateBlinkt_spec o :
  updateBlinkt o =
  Ok ({| brightness := brightness o; resourceList := settled (resourceList o) |},
      walk_calls (brightness o) 0 (resourceList o)
      ++ clear (len (settled (resourceList o))) ++ [blinkt_Show]).
Proof.
  unfold updateBlinkt.
  pose proof (loop_spec (brightness o) (resourceList o) [] []) as H.
  simpl in H. change (len []) with 0 in H. rewrite H. done.
Qed.

Lemma settled_steady l :
  Forall (λ r, state r = unchanged) l → settled l = l.
Proof.
  induction 1 as [|r l Hr _ IH]; [done|].
  rewrite settled_cons, decide_False, IH by congruence.
  destruct r; simpl in *; by subst.
Qed.

Lemma settled_all_steady l : Forall (λ r, state r = unchanged) (settled l).
Proof. unfold settled. apply Forall_fmap, Forall_true. done. Qed.

Lemma settled_keep l :
  Forall (λ r, state r ≠ deleted) l → settled l = steady <$> l.
Proof.
  induction 1 as [|r l Hr _ IH]; [done|].
  by rewrite settled_cons, decide_False, IH.
Qed.

Lemma settled_keys_sublist l : sublist (key <$> settled l) (key <$> l).
Proof.
  unfold settled. rewrite <-list_fmap_compose.
  change (key ∘ steady) with key.
  apply fmap_sublist, sublist_filter.
Qed.

Lemma walk_calls_beyond b l : ∀ i, 8 ≤ i → walk_calls b i l = [].
Proof.
  induction l as [|r l IH]; intros i Hi; [done|]. simpl.
  destruct (state r); rewrite decide_False, IH by lia; done.
Qed.

(** ** Lookup by key *)

Lemma getResource_from_None i k l :
  getResource_from i k l = None ↔ k ∉ key <$> l.
Proof.
  revert i. induction l as [|r l IH]; intros i; simpl.
  - split; [intros _; apply not_elem_of_nil | done].
  - rewrite not_elem_of_cons. destruct (decide (key r = k)).
    + split; [done | intros [? _]; congruence].
    + rewrite IH. split; [intros ?; split; [congruence | done] | by intros [_ ?]].
Qed.

Lemma getResource_None k l : getResource k l = None ↔ k ∉ key <$> l.
Proof. apply getResource_from_None. Qed.

Lemma getResource_from_Some i k l p :
  getResource_from i k l = Some p →
  ∃ r, (i ≤ p)%nat ∧ l !! (p - i)%nat = Some r ∧ key r = k.
Proof.
  revert i. induction l as [|r l IH]; intros i; simpl; [done|].
  destruct (decide (key r = k)).
  - intros [= <-]. exists r. rewrite Nat.sub_diag. done.
  - intros (r' & Hle & Hl & Hk)%IH. exists r'. split; [lia|].
    replace (p - i)%nat with (S (p - S i)) by lia. done.
Qed.

Lemma getResource_Some k l p :
  getResource k l = Some p → ∃ r, l !! p = Some r ∧ key r = k.
Proof.
  intros (r & _ & Hl & Hk)%getResource_from_Some.
  rewrite Nat.sub_0_r in Hl. eauto.
Qed.

(** ** States the walk goes through *)

Lemma index_Ok l i r :
  index l i = Ok r → 0 ≤ i < len l ∧ l !! Z.to_nat i = Some r.
Proof.
  unfold index. destruct (decide _); [|done].
  destruct (l !! Z.to_nat i); [|done]. by intros [= ->].
Qed.

Lemma body_bounds b w w' :
  body b w = Ok w' → 0 ≤ idx (post w') ≤ len (coll (post w')).
Proof.
  unfold body. destruct (index (coll w) (idx w)) as [r|] eqn:Hr; [|done].
  apply index_Ok in Hr as [Hi _]. unfold len in *. simpl.
  destruct (state r); intros [= <-]; simpl;
    rewrite ?length_insert, ?length_app, ?length_take, ?length_drop; lia.
Qed.

Lemma visits_loop b w0 w : visits b w0 w → loop b w = loop b w0.
Proof.
  induction 1 as [|w1 w2 _ IH Hlt Hb]; [done|].
  rewrite <-IH, (loop_step b w1), decide_True, Hb by done. done.
Qed.

(** The pass seen from a state the walk goes through. *)
Lemma updateBlinkt_visits o w :
  visits (brightness o) {| idx := 0; coll := resourceList o; ops := [] |} w →
  updateBlinkt o =
  (w' ← loop (brightness o) w;
   Ok ({| brightness := brightness o; resourceList := coll w' |},
       ops w' ++ clear (idx w') ++ [blinkt_Show])).
Proof. intros H. unfold updateBlinkt. by rewrite (visits_loop _ _ _ H). Qed.

Lemma walk_calls_app b l1 : ∀ i l2,
  walk_calls b i (l1 ++ l2) =
  walk_calls b i l1 ++ walk_calls b (i + len (settled l1)) l2.
Proof.
  induction l1 as [|r l1 IH]; intros i l2.
  - simpl. f_equal. unfold len. simpl. lia.
  - simpl. rewrite settled_cons.
    destruct (state r) eqn:E; simpl; rewrite IH, <-?app_assoc; try done;
      do 3 f_equal; unfold len; cbn [length]; lia.
Qed.

(** The walk meets every record of the slice: the one after [pre], when
    the records of [pre] have been visited and those marked [deleted]
    dropped.  When no record of [pre] is [deleted] this is at the
    position the record has in the slice. *)
Lemma visits_position b pre : ∀ rest,
  visits b {| idx := 0; coll := pre ++ rest; ops := [] |}
           {| idx := len (settled pre);
              coll := settled pre ++ rest;
              ops := walk_calls b 0 pre |}.
Proof.
  induction pre as [|r pre IH] using rev_ind; intros rest.
  - apply visits_first.
  - rewrite <-app_assoc. simpl.
    pose proof (IH (r :: rest)) as Hv.
    pose proof (index_app_middle (settled pre) r rest) as Hi.
    assert (Hlt : len (settled pre) < len (settled pre ++ r :: rest)).
    { unfold len. rewrite length_app. simpl. lia. }
    assert (Hn : Z.to_nat (len (settled pre)) = length (settled pre))
      by (unfold len; lia).
    rewrite settled_app, walk_calls_app, settled_cons. simpl.
    rewrite Z.add_0_l.
    destruct (state r) eqn:E; simpl;
      (eapply (eq_rect _ (visits b _));
       [ eapply (visits_next _ _ _ _ Hv Hlt);
         unfold body; cbn [idx coll ops]; rewrite Hi; simpl; by rewrite E
       | unfold post; cbn [idx coll ops] ]).
    1, 2: rewrite Hn, insert_app_r_alt, Nat.sub_diag by lia; simpl;
          rewrite app_nil_r, <-app_assoc; f_equal;
          unfold len; rewrite length_app; simpl; lia.
    + replace (Z.to_nat (len (settled pre) + 1)) with (S (length (settled pre)))
        by (unfold len; lia).
      rewrite Hn, take_app_length.
      rewrite (cons_middle r (settled pre) rest), app_assoc, drop_app_length'
        by (rewrite length_app; simpl; lia).
      rewrite !app_nil_r. f_equal. lia.
    + assert (Hr : steady r = r) by (destruct r; simpl in *; by subst).
      rewrite Hr, app_nil_r, <-app_assoc. f_equal.
      unfold len. rewrite length_app. simpl. lia.
Qed.

(** ** What the calls leave on the display *)

Lemma perform_all_app d cs1 cs2 :
  perform_all d (cs1 ++ cs2) = perform_all (perform_all d cs1) cs2.
Proof. apply foldl_app. Qed.

Lemma perform_all_cons d c cs :
  perform_all d (c :: cs) = perform_all (perform d c) cs.
Proof. done. Qed.

Lemma perform_all_clear js : ∀ d,
  shown (perform_all d ((λ j, blinkt_Set j Off 0%float) <$> js)) = shown d ∧
  ∀ j, buffer (perform_all d ((λ j, blinkt_Set j Off 0%float) <$> js)) j =
       if decide (j ∈ js) then Pixel Off 0%float else buffer d j.
Proof.
  induction js as [|a js IH]; intros d.
  - split; [done|]. intros j. rewrite decide_False; [done|]. apply not_elem_of_nil.
  - rewrite fmap_cons, perform_all_cons.
    destruct (IH (perform d (blinkt_Set a Off 0%float))) as [Hs Hb].
    split; [by rewrite Hs|]. intros j. rewrite Hb. simpl.
    destruct (decide (j ∈ js)) as [Hj|Hj].
    + rewrite decide_True; [done|]. by right.
    + destruct (decide (j = a)) as [->|Hne].
      * rewrite decide_True; [done|]. by left.
      * rewrite decide_False; [done|]. by intros [?|?]%elem_of_cons.
Qed.

(** Painting records that are all [unchanged], from slot [i] on. *)
Lemma perform_all_steady b l : ∀ i d,
  Forall (λ r, state r = unchanged) l → 0 ≤ i →
  shown (perform_all d (walk_calls b i l)) = shown d ∧
  ∀ j, buffer (perform_all d (walk_calls b i l)) j =
       if decide (i ≤ j < 8)
       then match l !! Z.to_nat (j - i) with
            | Some r => Pixel (color r) b
            | None => buffer d j
            end
       else buffer d j.
Proof.
  induction l as [|r l IH]; intros i d Hl Hi.
  - split; [done|]. intros j. by destruct (decide _).
  - inversion Hl as [|? ? Hr Hl']; subst. simpl. rewrite Hr.
    rewrite perform_all_app.
    destruct (IH (i + 1)
                (perform_all d (if decide (i < 8)
                                then [blinkt_Set i (color r) b] else []))
                Hl' ltac:(lia)) as [Hs Hb].
    split.
    + rewrite Hs. by destruct (decide (i < 8)).
    + intros j. rewrite Hb. clear Hs Hb.
      destruct (decide (i + 1 ≤ j < 8)) as [Hj|Hj].
      * rewrite (decide_True (P := i ≤ j < 8)) by lia.
        rewrite (decide_True (P := i < 8)) by lia.
        replace (Z.to_nat (j - i)) with (S (Z.to_nat (j - (i + 1)))) by lia.
        simpl. destruct (l !! _); [done|].
        rewrite decide_False by lia. done.
      * destruct (decide (i ≤ j < 8)) as [Hj'|Hj'].
        -- assert (j = i) as -> by lia. rewrite Z.sub_diag. simpl.
           rewrite (decide_True (P := i < 8)) by lia. simpl.
           by rewrite decide_True.
        -- destruct (decide (i < 8)); [|done]. simpl.
           rewrite decide_False by lia. done.
Qed.

Lemma clear_beyond i : 8 ≤ i → clear i = [].
Proof. intros Hi. unfold clear. rewrite seqZ_nil by lia. done. Qed.

Lemma ControllerObj_eta o :
  {| brightness := brightness o; resourceList := resourceList o |} = o.
Proof. by destruct o. Qed.

(** The frame committed by a pass over records that are all
    [unchanged]: slot [j] shows record [j], or is off past the last
    record. *)
Lemma steady_render_frame b l d j :
  Forall (λ r, state r = unchanged) l →
  shown (perform_all d (walk_calls b 0 l ++ clear (len l) ++ [blinkt_Show])) j =
  if decide (0 ≤ j < 8)
  then match l !! Z.to_nat j with
       | Some r => Pixel (color r) b
       | None => Pixel Off 0%float
       end
  else buffer d j.
Proof.
  intros Hl. rewrite !perform_all_app. simpl.
  destruct (perform_all_clear (seqZ (len l) (8 - len l))
              (perform_all d (walk_calls b 0 l))) as [_ Hb].
  destruct (perform_all_steady b l 0 d Hl ltac:(lia)) as [_ Hw].
  unfold clear. rewrite Hb, Hw, Z.sub_0_r. clear Hb Hw.
  destruct (decide (j ∈ seqZ (len l) (8 - len l))) as [Hj|Hj];
    rewrite elem_of_seqZ in Hj; unfold len in *.
  - rewrite decide_True by lia.
    rewrite (proj2 (lookup_ge_None l (Z.to_nat j))) by lia. done.
  - destruct (decide (0 ≤ j < 8)); [|done].
    destruct (lookup_lt_is_Some_2 l (Z.to_nat j)) as [r ->]; [lia|done].
Qed.

(** ** The render pass *)

(** C9: after every render pass, whatever the length of the collection,
    the pass having returned, every record left in the collection is
    [unchanged] (steady) and none is [deleted] (removed): the records
    left are those that were not marked removed, in their order, with
    their state reset, at every position, also past the eighth. *)
Theorem C9_render_leaves_only_steady_records o :
  ∃ o' cs,
    updateBlinkt o = Ok (o', cs) ∧
    Forall (λ r, state r = unchanged) (resourceList o') ∧
    Forall (λ r, state r ≠ deleted) (resourceList o') ∧
    resourceList o' = steady <$> filter (λ r, state r ≠ deleted) (resourceList o).
Proof.
  eexists _, _. split; [apply updateBlinkt_spec|]. simpl.
  split; [apply settled_all_steady|]. split; [|done].
  eapply Forall_impl; [apply settled_all_steady|]. simpl. congruence.
Qed.

(** C6: when the walk of a render pass is over, the pass sets every
    slot from the final length of the collection up to 7 to [Off] with
    brightness 0, just before the commit, so that the committed frame
    has these slots off; rendering an empty collection issues exactly
    the eight clearing calls and the commit. *)
Theorem C6_render_clears_slots_past_the_collection o :
  ∃ o' cs,
    let n := len (resourceList o') in
    let cleared := (λ j, blinkt_Set j Off 0%float) <$> seqZ n (8 - n) in
    updateBlinkt o = Ok (o', cs ++ cleared ++ [blinkt_Show]) ∧
    (∀ j, n ≤ j ≤ 7 → blinkt_Set j Off 0%float ∈ cleared) ∧
    (∀ d j, n ≤ j ≤ 7 →
       shown (perform_all d (cs ++ cleared ++ [blinkt_Show])) j = Pixel Off 0%float) ∧
    (resourceList o = [] →
       cs = [] ∧
       cleared = [blinkt_Set 0 Off 0%float; blinkt_Set 1 Off 0%float;
                  blinkt_Set 2 Off 0%float; blinkt_Set 3 Off 0%float;
                  blinkt_Set 4 Off 0%float; blinkt_Set 5 Off 0%float;
                  blinkt_Set 6 Off 0%float; blinkt_Set 7 Off 0%float]).
Proof.
  exists {| brightness := brightness o; resourceList := settled (resourceList o) |},
         (walk_calls (brightness o) 0 (resourceList o)).
  cbn zeta. split; [apply updateBlinkt_spec|]. simpl.
  set (n := len (settled (resourceList o))).
  assert (Hin : ∀ j, n ≤ j ≤ 7 → j ∈ seqZ n (8 - n))
    by (intros j Hj; apply elem_of_seqZ; lia).
  split; [|split].
  - intros j Hj. apply (list_elem_of_fmap_2 (λ j, blinkt_Set j Off 0%float)). auto.
  - intros d j Hj. rewrite !perform_all_app. simpl.
    destruct (perform_all_clear (seqZ n (8 - n))
                (perform_all d (walk_calls (brightness o) 0 (resourceList o))))
      as [_ Hb].
    rewrite Hb, decide_True by auto. done.
  - intros E. subst n. rewrite E. done.
Qed.

(** C8: when every record of the collection is [unchanged] (steady), a
    render pass returns the collection as it was, a second pass issues
    the same calls as the first and returns the same collection, and
    the frame committed by the second pass is the frame committed by
    the first. *)
Theorem C8_render_steady_twice o :
  Forall (λ r, state r = unchanged) (resourceList o) →
  ∃ cs,
    updateBlinkt o = Ok (o, cs) ∧
    ('(o1, _) ← updateBlinkt o; updateBlinkt o1) = Ok (o, cs) ∧
    ∀ d j, shown (perform_all (perform_all d cs) cs) j = shown (perform_all d cs) j.
Proof.
  intros Hl.
  assert (Hu : updateBlinkt o =
               Ok (o, walk_calls (brightness o) 0 (resourceList o)
                      ++ clear (len (resourceList o)) ++ [blinkt_Show])).
  { rewrite updateBlinkt_spec, (settled_steady _ Hl), ControllerObj_eta. done. }
  eexists. split; [exact Hu|]. split.
  - rewrite Hu. simpl. exact Hu.
  - intros d j. rewrite !(steady_render_frame _ _ _ _ Hl).
    destruct (decide (0 ≤ j < 8)); [done|].
    rewrite !perform_all_app. simpl.
    destruct (perform_all_clear (seqZ (len (resourceList o)) (8 - len (resourceList o)))
                (perform_all d (walk_calls (brightness o) 0 (resourceList o))))
      as [_ Hb].
    destruct (perform_all_steady (brightness o) (resourceList o) 0 d Hl ltac:(lia))
      as [_ Hw].
    unfold clear. rewrite Hb, Hw.
    rewrite decide_False by (rewrite elem_of_seqZ; unfold len; lia).
    rewrite decide_False by lia. done.
Qed.

(** ** One iteration of the walk, by the state of the record met *)

Lemma body_dirty b w r :
  index (coll w) (idx w) = Ok r →
  state r = added ∨ state r = updated →
  body b w =
  Ok {| idx := idx w;
        coll := <[Z.to_nat (idx w) := steady r]> (coll w);
        ops := ops w ++
               (if decide (idx w < 8)
                then [blinkt_Flash (idx w) (color r) b 2 (50 * Millisecond);
                      blinkt_Set (idx w) (color r) b]
                else []) |}.
Proof. intros Hi [E|E]; unfold body; rewrite Hi; simpl; by rewrite E. Qed.

Lemma body_deleted b w r :
  index (coll w) (idx w) = Ok r →
  state r = deleted →
  body b w =
  Ok {| idx := idx w - 1;
        coll := take (Z.to_nat (idx w)) (coll w)
                ++ drop (Z.to_nat (idx w + 1)) (coll w);
        ops := ops w ++
               (if decide (idx w < 8)
                then [blinkt_Flash (idx w) (color r) b 2 (50 * Millisecond)]
                else []) |}.
Proof. intros Hi E; unfold body; rewrite Hi; simpl; by rewrite E. Qed.

(** The rest of the pass after an iteration that left the walk at index
    [i] with slice [l] and calls [tr]. *)
Lemma updateBlinkt_after o w w' :
  visits (brightness o) {| idx := 0; coll := resourceList o; ops := [] |} w →
  idx w < len (coll w) →
  body (brightness o) w = Ok w' →
  let i := Z.to_nat (idx w' + 1) in
  let l' := take i (coll w') ++ settled (drop i (coll w')) in
  updateBlinkt o =
  Ok ({| brightness := brightness o; resourceList := l' |},
      ops w' ++ walk_calls (brightness o) (idx w' + 1) (drop i (coll w'))
      ++ clear (len l') ++ [blinkt_Show]).
Proof.
  intros Hv Hlt Hb. cbn zeta.
  rewrite (updateBlinkt_visits o w Hv), loop_step, decide_True, Hb by done.
  simpl. rewrite loop_from by (by eapply body_bounds).
  simpl. rewrite <-!app_assoc. done.
Qed.

(** C5: when the walk of a render pass is at index [i < 8] and the
    record at position [i] of the collection is [added] (seen) or
    [updated] (changed), the pass calls [Flash] on slot [i] with the
    record's colour, 2 cycles and an interval of 50 ms, and next [Set]
    on slot [i] with that colour; when the pass returns, the record is
    at position [i] with state [unchanged] (steady). *)
Theorem C5_seen_or_changed_record_flashes_then_sets o w r :
  visits (brightness o) {| idx := 0; coll := resourceList o; ops := [] |} w →
  index (coll w) (idx w) = Ok r →
  state r = added ∨ state r = updated →
  idx w < 8 →
  ∃ o' rest,
    updateBlinkt o =
    Ok (o', ops w
            ++ [blinkt_Flash (idx w) (color r) (brightness o) 2 (50 * Millisecond);
                blinkt_Set (idx w) (color r) (brightness o)]
            ++ rest) ∧
    resourceList o' !! Z.to_nat (idx w) =
    Some {| key := key r; color := color r; state := unchanged |}.
Proof.
  intros Hv Hi Hs H8. destruct (index_Ok _ _ _ Hi) as [Hb Hl].
  pose proof (updateBlinkt_after o w _ Hv (proj2 Hb)
                (body_dirty (brightness o) w r Hi Hs)) as Hu.
  cbn zeta in Hu. cbn [idx coll ops] in Hu.
  rewrite decide_True in Hu by done.
  eexists _, _. split.
  - rewrite Hu, <-!app_assoc. simpl. done.
  - simpl. rewrite lookup_app_l
      by (rewrite length_take, length_insert; unfold len in Hb; lia).
    rewrite lookup_take_lt by lia.
    rewrite list_lookup_insert_eq by (unfold len in Hb; lia). done.
Qed.

Lemma delete_middle_take (l : list resource) i :
  (i < length l)%nat →
  take i (take i l ++ drop (S i) l) = take i l ∧
  drop i (take i l ++ drop (S i) l) = drop (S i) l.
Proof.
  intros Hi.
  assert (Hn : length (take i l) = i) by (rewrite length_take; lia).
  split.
  - rewrite take_app_le by lia. rewrite take_take. f_equal. lia.
  - rewrite drop_app_ge by lia. rewrite Hn, Nat.sub_diag. done.
Qed.

(** C10: when the walk of a render pass is at an index [i >= 8] and the
    record at position [i] of the collection is [deleted] (removed),
    the iteration removes the record from the collection and issues no
    display call, and neither does the rest of the walk: the calls of
    the whole pass are those issued before the record was met, followed
    by the commit alone.  No [Flash] announces the removal. *)
Theorem C10_removed_record_past_the_display_is_silent o w r :
  visits (brightness o) {| idx := 0; coll := resourceList o; ops := [] |} w →
  index (coll w) (idx w) = Ok r →
  state r = deleted →
  8 ≤ idx w →
  body (brightness o) w =
    Ok {| idx := idx w - 1;
          coll := take (Z.to_nat (idx w)) (coll w)
                  ++ drop (Z.to_nat (idx w + 1)) (coll w);
          ops := ops w |} ∧
  ∃ o',
    updateBlinkt o = Ok (o', ops w ++ [blinkt_Show]) ∧
    resourceList o' =
      take (Z.to_nat (idx w)) (coll w)
      ++ (steady <$> filter (λ r, state r ≠ deleted)
                       (drop (S (Z.to_nat (idx w))) (coll w))).
Proof.
  intros Hv Hi Hs H8. destruct (index_Ok _ _ _ Hi) as [Hb Hl].
  pose proof (body_deleted (brightness o) w r Hi Hs) as Hbody.
  rewrite decide_False, app_nil_r in Hbody by lia.
  split; [done|].
  pose proof (updateBlinkt_after o w _ Hv (proj2 Hb) Hbody) as Hu.
  cbn zeta in Hu. cbn [idx coll ops] in Hu.
  replace (idx w - 1 + 1) with (idx w) in Hu by lia.
  replace (Z.to_nat (idx w + 1)) with (S (Z.to_nat (idx w))) in Hu by lia.
  destruct (delete_middle_take (coll w) (Z.to_nat (idx w))) as [Ht Hd];
    [unfold len in Hb; lia|].
  rewrite Ht, Hd, walk_calls_beyond in Hu by done.
  rewrite clear_beyond in Hu
    by (unfold len in *; rewrite length_app, length_take; lia).
  eexists. split; [exact Hu|done].
Qed.

(** C3: when the walk of a render pass meets a [deleted] (removed)
    record at position [i] of the collection, the iteration deletes it:
    after the iteration, post statement included, the walk index is
    still [i], the collection is one shorter, the records before
    position [i] are where they were and every record that was after
    position [i] is exactly one position earlier, in the same order.
    The pass returns the records that were not marked removed, in the
    order they had. *)
Theorem C3_removed_record_is_deleted_and_later_records_shift o w r :
  visits (brightness o) {| idx := 0; coll := resourceList o; ops := [] |} w →
  index (coll w) (idx w) = Ok r →
  state r = deleted →
  let i := Z.to_nat (idx w) in
  ∃ w',
    body (brightness o) w = Ok w' ∧
    idx (post w') = idx w ∧
    coll (post w') = take i (coll w) ++ drop (S i) (coll w) ∧
    length (coll (post w')) = (length (coll w) - 1)%nat ∧
    (∀ j, (j < i)%nat → coll (post w') !! j = coll w !! j) ∧
    (∀ j, (i ≤ j)%nat → coll (post w') !! j = coll w !! S j) ∧
    ∃ o' cs,
      updateBlinkt o = Ok (o', cs) ∧
      resourceList o' =
        take i (coll w)
        ++ (steady <$> filter (λ r, state r ≠ deleted) (drop (S i) (coll w))) ∧
      resourceList o' =
        steady <$> filter (λ r, state r ≠ deleted) (resourceList o).
Proof.
  intros Hv Hi Hs i. destruct (index_Ok _ _ _ Hi) as [Hb Hl].
  pose proof (body_deleted (brightness o) w r Hi Hs) as Hbody.
  replace (Z.to_nat (idx w + 1)) with (S i) in Hbody by lia.
  fold i in Hbody.
  assert (Hlen : (i < length (coll w))%nat) by (unfold len in Hb; lia).
  assert (Hn : length (take i (coll w)) = i) by (rewrite length_take; lia).
  eexists. split; [exact Hbody|]. cbn [post idx coll ops].
  split; [lia|]. split; [done|]. split; [|split; [|split]].
  - rewrite length_app, length_take, length_drop. lia.
  - intros j Hj. rewrite lookup_app_l by lia. by rewrite lookup_take_lt.
  - intros j Hj. rewrite lookup_app_r by lia. rewrite Hn, lookup_drop.
    f_equal. lia.
  - pose proof (updateBlinkt_after o w _ Hv (proj2 Hb) Hbody) as Hu.
    cbn zeta in Hu. cbn [idx coll ops] in Hu.
    replace (Z.to_nat (idx w - 1 + 1)) with i in Hu by lia.
    destruct (delete_middle_take (coll w) i Hlen) as [Ht Hd].
    rewrite Ht, Hd in Hu.
    eexists _, _. split; [exact Hu|]. split; [done|].
    pose proof (updateBlinkt_spec o) as Hu'. rewrite Hu in Hu'.
    injection Hu' as Hu' _. exact Hu'.
Qed.

(** ** The callbacks *)

(** C7: when the collection holds exactly 8 records, all [unchanged]
    (steady), and the display shows them in slots 0 to 7, an add event
    leaves a ninth record in the collection and issues exactly the calls
    that a render pass over the eight records alone issues: the frame
    committed has in slots 0 to 7 the values of the frame before, and no
    call is made for the ninth record. *)
Theorem C7_ninth_record_is_tracked_but_not_shown o obj k d :
  length (resourceList o) = 8%nat →
  Forall (λ r, state r = unchanged) (resourceList o) →
  MetaNamespaceKey obj = Some k →
  (∀ (j : nat) r, resourceList o !! j = Some r →
                  shown d (Z.of_nat j) = Pixel (color r) (brightness o)) →
  ∃ cs,
    AddFunc o obj =
      Ok ({| brightness := brightness o;
             resourceList :=
               resourceList o
               ++ [{| key := k; color := colorFunc obj; state := unchanged |}] |},
          cs) ∧
    updateBlinkt o = Ok (o, cs) ∧
    ∀ j, 0 ≤ j < 8 → shown (perform_all d cs) j = shown d j.
Proof.
  intros Hlen Hl Hk Hd.
  assert (H8 : len (resourceList o) = 8) by (unfold len; lia).
  assert (Hu : updateBlinkt o =
               Ok (o, walk_calls (brightness o) 0 (resourceList o)
                      ++ clear (len (resourceList o)) ++ [blinkt_Show])).
  { rewrite updateBlinkt_spec, (settled_steady _ Hl), ControllerObj_eta. done. }
  eexists. split; [|split; [exact Hu|]].
  - unfold AddFunc, keyFunc. rewrite Hk. simpl.
    rewrite updateBlinkt_spec. simpl.
    rewrite settled_app, (settled_steady _ Hl), walk_calls_app.
    rewrite (settled_steady _ Hl), H8.
    rewrite (walk_calls_beyond _ [_]) by lia.
    rewrite app_nil_r, !clear_beyond
      by (unfold len in *; rewrite ?length_app; simpl; lia).
    done.
  - intros j Hj. rewrite (steady_render_frame _ _ _ _ Hl), decide_True by done.
    destruct (lookup_lt_is_Some_2 (resourceList o) (Z.to_nat j)) as [r Hr]; [lia|].
    rewrite Hr. apply Hd in Hr. rewrite Z2Nat.id in Hr by lia. done.
Qed.

(** C2: an update or a delete event whose key has no record in the
    collection makes the callback panic (the lookup returns nil and the
    callback dereferences it): no state is returned and no display call
    is made. *)
Theorem C2_event_for_untracked_key_panics o oldObj obj k :
  MetaNamespaceKey obj = Some k →
  k ∉ key <$> resourceList o →
  getResource k (resourceList o) = None ∧
  UpdateFunc o oldObj obj = Panic ∧
  DeleteFunc o obj = Panic.
Proof.
  intros Hk Hn. apply getResource_None in Hn.
  unfold UpdateFunc, DeleteFunc, keyFunc. rewrite Hk. simpl. rewrite Hn. done.
Qed.

(** C4: an update event whose key is that of a record of the collection
    (the record the lookup returns) and whose colour is the colour the
    record has returns at once: the controller, and so the collection
    and the state and colour of every record, is what it was, and no
    display call is made, hence no render pass. *)
Theorem C4_update_with_same_color_changes_nothing o oldObj newObj k p r :
  MetaNamespaceKey newObj = Some k →
  getResource k (resourceList o) = Some p →
  resourceList o !! p = Some r →
  colorFunc newObj = color r →
  key r = k ∧ UpdateFunc o oldObj newObj = Ok (o, []).
Proof.
  intros Hk Hp Hr Hc. split.
  - destruct (getResource_Some _ _ _ Hp) as (r' & Hr' & Hk'). congruence.
  - unfold UpdateFunc, keyFunc. rewrite Hk. simpl. rewrite Hp, Hr.
    by rewrite decide_True.
Qed.

(** ** Uniqueness of keys *)

Lemma NoDup_settled l : NoDup (key <$> l) → NoDup (key <$> settled l).
Proof. intros H. eapply sublist_NoDup; [done|apply settled_keys_sublist]. Qed.

Lemma keys_insert_same (l : list resource) p r r' :
  l !! p = Some r → key r' = key r → key <$> <[p := r']> l = key <$> l.
Proof.
  intros Hl Hk. rewrite list_fmap_insert, Hk.
  apply list_insert_id. by rewrite list_lookup_fmap, Hl.
Qed.

Lemma handle_keys o e o' cs :
  NoDup (key <$> resourceList o) →
  (∀ obj k, e = Add obj → MetaNamespaceKey obj = Some k →
            k ∉ key <$> resourceList o) →
  handle o e = Ok (o', cs) →
  NoDup (key <$> resourceList o').
Proof.
  intros Hnd Hfresh. destruct e as [obj|oldObj newObj|obj]; simpl.
  - unfold AddFunc, keyFunc.
    destruct (MetaNamespaceKey obj) as [k|] eqn:Hk; [|done]. simpl.
    rewrite updateBlinkt_spec. intros [= <- _]. simpl.
    apply NoDup_settled. rewrite fmap_app. simpl.
    apply NoDup_app. split; [done|]. split; [|apply NoDup_singleton].
    intros x Hx ->%list_elem_of_singleton. by eapply Hfresh.
  - unfold UpdateFunc, keyFunc.
    destruct (MetaNamespaceKey newObj) as [k|]; [|done]. simpl.
    destruct (getResource k (resourceList o)) as [p|]; [|done].
    destruct (resourceList o !! p) as [r|] eqn:Hr; [|done].
    destruct (decide _); [by intros [= <- _]|].
    rewrite updateBlinkt_spec. intros [= <- _]. simpl.
    apply NoDup_settled. by rewrite (keys_insert_same _ _ r).
  - unfold DeleteFunc, keyFunc.
    destruct (MetaNamespaceKey obj) as [k|]; [|done]. simpl.
    destruct (getResource k (resourceList o)) as [p|]; [|done].
    destruct (resourceList o !! p) as [r|] eqn:Hr; [|done].
    rewrite updateBlinkt_spec. intros [= <- _]. simpl.
    apply NoDup_settled. by rewrite (keys_insert_same _ _ r).
Qed.

Lemma run_keys es : ∀ o o' cs,
  NoDup (key <$> resourceList o) →
  fresh_adds o es →
  run o es = Ok (o', cs) →
  NoDup (key <$> resourceList o').
Proof.
  induction es as [|e es IH]; intros o o' cs Hnd Hf; simpl.
  - by intros [= <- _].
  - destruct Hf as [Hfresh Hrest].
    destruct (handle o e) as [[o1 cs1]|] eqn:He; [|done]. simpl.
    destruct (run o1 es) as [[o2 cs2]|] eqn:Hr; [|done]. simpl.
    intros [= <- _]. eapply IH; [|exact Hrest|exact Hr].
    by eapply handle_keys.
Qed.

(** C1 (as amended): for every sequence of add, update and delete
    events applied to the empty tracker in which every add event brings
    a key that is not tracked when it arrives, the collection the
    callbacks leave never holds two records with the same key. *)
Theorem C1_keys_unique_when_adds_are_fresh b es o cs :
  fresh_adds (NewController b) es →
  run (NewController b) es = Ok (o, cs) →
  NoDup (key <$> resourceList o).
Proof. intros Hf Hr. eapply run_keys; [|exact Hf|exact Hr]. apply NoDup_nil_2. Qed.

(** ** Positions in the collection the pass starts from

    Every render pass the callbacks trigger starts from a collection in
    which one record at most is not [unchanged]; the walk then meets
    each record at the position it has in that collection. *)

Lemma visits_at_position o pre r post :
  resourceList o = pre ++ r :: post →
  Forall (λ r, state r ≠ deleted) pre →
  visits (brightness o) {| idx := 0; coll := resourceList o; ops := [] |}
         {| idx := len pre;
            coll := (steady <$> pre) ++ r :: post;
            ops := walk_calls (brightness o) 0 pre |} ∧
  index ((steady <$> pre) ++ r :: post) (len pre) = Ok r.
Proof.
  intros -> Hpre.
  pose proof (visits_position (brightness o) pre (r :: post)) as Hv.
  rewrite (settled_keep _ Hpre) in Hv.
  assert (Hlen : len (steady <$> pre) = len pre)
    by (unfold len; by rewrite length_fmap).
  rewrite Hlen in Hv. split; [done|].
  rewrite <-Hlen. apply index_app_middle.
Qed.

Lemma render_single_removed o pre r post :
  resourceList o = pre ++ r :: post →
  state r = deleted →
  Forall (λ r, state r ≠ deleted) pre →
  Forall (λ r, state r ≠ deleted) post →
  ∃ cs, updateBlinkt o =
        Ok ({| brightness := brightness o;
               resourceList := steady <$> (pre ++ post) |}, cs).
Proof.
  intros Hl Hr Hpre Hpost. eexists. rewrite updateBlinkt_spec, Hl.
  rewrite settled_app, settled_cons, decide_True by done.
  rewrite (settled_keep _ Hpre), (settled_keep _ Hpost), <-fmap_app. done.
Qed.

Lemma handle_all_steady o e o' cs :
  Forall (λ r, state r = unchanged) (resourceList o) →
  handle o e = Ok (o', cs) →
  Forall (λ r, state r = unchanged) (resourceList o').
Proof.
  intros Hl. destruct e as [obj|oldObj newObj|obj]; simpl.
  - unfold AddFunc. destruct (keyFunc obj); [|done]. simpl.
    rewrite updateBlinkt_spec. intros [= <- _]. apply settled_all_steady.
  - unfold UpdateFunc. destruct (keyFunc newObj) as [k|]; [|done]. simpl.
    destruct (getResource k (resourceList o)) as [p|]; [|done].
    destruct (resourceList o !! p) as [r|]; [|done].
    destruct (decide _); [by intros [= <- _]|].
    rewrite updateBlinkt_spec. intros [= <- _]. apply settled_all_steady.
  - unfold DeleteFunc. destruct (keyFunc obj) as [k|]; [|done]. simpl.
    destruct (getResource k (resourceList o)) as [p|]; [|done].
    destruct (resourceList o !! p) as [r|]; [|done].
    rewrite updateBlinkt_spec. intros [= <- _]. apply settled_all_steady.
Qed.

(** Between callbacks every tracked record is [unchanged]. *)
Lemma run_all_steady es : ∀ o o' cs,
  Forall (λ r, state r = unchanged) (resourceList o) →
  run o es = Ok (o', cs) →
  Forall (λ r, state r = unchanged) (resourceList o').
Proof.
  induction es as [|e es IH]; intros o o' cs Hl; simpl.
  - by intros [= <- _].
  - destruct (handle o e) as [[o1 cs1]|] eqn:He; [|done]. simpl.
    destruct (run o1 es) as [[o2 cs2]|] eqn:Hr; [|done]. simpl.
    intros [= <- _]. eapply IH; [|exact Hr]. by eapply handle_all_steady.
Qed.

(** ** Callbacks between render passes

    Between callbacks every record is [unchanged] ([run_all_steady]); the
    lemmas below give what each callback does from such a collection. *)

Lemma len_app l1 l2 : len (l1 ++ l2) = len l1 + len l2.
Proof. unfold len. rewrite length_app. lia. Qed.

Lemma walk_calls_paint b l : ∀ i,
  Forall (λ r, state r = unchanged) l → walk_calls b i l = paint b i l.
Proof.
  induction l as [|r l IH]; intros i Hl.
  - unfold paint. by rewrite take_nil.
  - inversion Hl as [|? ? Hr Hl']; subst. simpl. rewrite Hr, IH by done.
    unfold paint. destruct (decide (i < 8)) as [Hi|Hi].
    + replace (Z.to_nat (8 - i)) with (S (Z.to_nat (8 - (i + 1)))) by lia.
      simpl. rewrite Z.add_0_r. f_equal. apply imap_ext. intros j x _. simpl.
      f_equal. lia.
    + replace (Z.to_nat (8 - i)) with 0%nat by lia.
      replace (Z.to_nat (8 - (i + 1))) with 0%nat by lia. done.
Qed.

(** A render pass over a collection in which one record at most, [r], is
    not [unchanged]. *)
Lemma updateBlinkt_one o pre r post :
  resourceList o = pre ++ r :: post →
  Forall (λ r, state r = unchanged) pre →
  Forall (λ r, state r = unchanged) post →
  updateBlinkt o =
  Ok ({| brightness := brightness o;
         resourceList := pre ++ settled [r] ++ post |},
      paint (brightness o) 0 pre
      ++ walk_calls (brightness o) (len pre) [r]
      ++ paint (brightness o) (len pre + len (settled [r])) post
      ++ clear (len pre + len (settled [r]) + len post) ++ [blinkt_Show]).
Proof.
  intros Hl Hpre Hpost. rewrite updateBlinkt_spec, Hl.
  rewrite (cons_middle r pre post), !settled_app, !walk_calls_app.
  rewrite (settled_steady _ Hpre), (settled_steady _ Hpost).
  rewrite (walk_calls_paint _ pre), (walk_calls_paint _ post) by done.
  rewrite !len_app, Z.add_0_l, <-!app_assoc, Z.add_assoc. done.
Qed.
Lemma getResource_from_shift k l : ∀ i,
  getResource_from i k l = (λ p, (i + p)%nat) <$> getResource_from 0 k l.
Proof.
  induction l as [|r l IH]; intros i; simpl; [done|].
  destruct (decide (key r = k)).
  - simpl. f_equal. lia.
  - rewrite (IH (S i)), (IH 1%nat). destruct (getResource_from 0 k l); simpl; [|done].
    f_equal. lia.
Qed.

Lemma getResource_cons k r l :
  getResource k (r :: l) =
  if decide (key r = k) then Some 0%nat else S <$> getResource k l.
Proof.
  unfold getResource. simpl. destruct (decide _); [done|].
  by rewrite getResource_from_shift.
Qed.

Lemma getResource_first k l : ∀ p,
  getResource k l = Some p ↔
  ∃ r, l !! p = Some r ∧ key r = k ∧
       ∀ q r', (q < p)%nat → l !! q = Some r' → key r' ≠ k.
Proof.
  induction l as [|r l IH]; intros p.
  - split; [done|]. by intros (r & Hr & _).
  - rewrite getResource_cons. destruct (decide (key r = k)) as [Hk|Hk].
    + split.
      * intros [= <-]. exists r. split; [done|]. split; [done|]. lia.
      * intros (r' & Hr' & Hk' & Hfirst). destruct p as [|p]; [done|].
        exfalso. apply (Hfirst 0%nat r); [lia|done|done].
    + split.
      * destruct (getResource k l) as [p'|]; [|done].
        intros [= <-]. destruct (proj1 (IH p') eq_refl) as (r' & Hr' & Hk' & Hfirst).
        exists r'. split; [done|]. split; [done|].
        intros [|q] r'' Hq Hr''; simpl in Hr''; [congruence|].
        apply (Hfirst q); [lia|done].
      * intros (r' & Hr' & Hk' & Hfirst). destruct p as [|p].
        { simpl in Hr'. congruence. }
        simpl in Hr'.
        assert (Hg : getResource k l = Some p).
        { apply IH. exists r'. split; [done|]. split; [done|].
          intros q r'' Hq Hr''. apply (Hfirst (S q)); [lia|done]. }
        by rewrite Hg.
Qed.

Lemma getResource_tracked k l :
  k ∈ key <$> l → ∃ p r, getResource k l = Some p ∧ l !! p = Some r ∧ key r = k.
Proof.
  intros Hk. destruct (getResource k l) as [p|] eqn:Hg.
  - destruct (getResource_Some _ _ _ Hg) as (r & Hr & Hkr). eauto.
  - apply getResource_None in Hg. done.
Qed.

Lemma getResource_app_fresh k l r :
  k ∉ key <$> l → key r = k → getResource k (l ++ [r]) = Some (length l).
Proof.
  intros Hn Hk. induction l as [|x l IH]; simpl.
  - rewrite getResource_cons. by rewrite decide_True.
  - rewrite fmap_cons, not_elem_of_cons in Hn. destruct Hn as [Hx Hn].
    rewrite getResource_cons, decide_False, IH by done. done.
Qed.

Lemma Forall_steady_split (l : list resource) p :
  Forall (λ r, state r = unchanged) l →
  Forall (λ r, state r = unchanged) (take p l) ∧
  Forall (λ r, state r = unchanged) (drop (S p) l).
Proof. intros Hl. split; [by apply Forall_take|by apply Forall_drop]. Qed.

Lemma AddFunc_steady o obj k :
  Forall (λ r, state r = unchanged) (resourceList o) →
  MetaNamespaceKey obj = Some k →
  AddFunc o obj =
  Ok ({| brightness := brightness o;
         resourceList :=
           resourceList o
           ++ [{| key := k; color := colorFunc obj; state := unchanged |}] |},
      paint (brightness o) 0 (resourceList o)
      ++ (if decide (len (resourceList o) < 8)
          then [blinkt_Flash (len (resourceList o)) (colorFunc obj) (brightness o)
                  2 (50 * Millisecond);
                blinkt_Set (len (resourceList o)) (colorFunc obj) (brightness o)]
          else [])
      ++ clear (len (resourceList o) + 1) ++ [blinkt_Show]).
Proof.
  intros Hl Hk. unfold AddFunc, keyFunc. rewrite Hk. simpl.
  rewrite (updateBlinkt_one _ (resourceList o)
             {| key := k; color := colorFunc obj; state := added |} [])
    by (done || constructor).
  change (settled [{| key := k; color := colorFunc obj; state := added |}])
    with [{| key := k; color := colorFunc obj; state := unchanged |}].
  simpl. unfold paint at 2. rewrite take_nil. simpl.
  change (len []) with 0. change (len [_]) with 1.
  rewrite !app_nil_r, Z.add_0_r. done.
Qed.

Lemma UpdateFunc_steady o oldObj newObj k p r :
  Forall (λ r, state r = unchanged) (resourceList o) →
  MetaNamespaceKey newObj = Some k →
  getResource k (resourceList o) = Some p →
  resourceList o !! p = Some r →
  colorFunc newObj ≠ color r →
  UpdateFunc o oldObj newObj =
  Ok ({| brightness := brightness o;
         resourceList :=
           <[p := {| key := key r; color := colorFunc newObj; state := unchanged |}]>
             (resourceList o) |},
      paint (brightness o) 0 (take p (resourceList o))
      ++ (if decide (Z.of_nat p < 8)
          then [blinkt_Flash (Z.of_nat p) (colorFunc newObj) (brightness o)
                  2 (50 * Millisecond);
                blinkt_Set (Z.of_nat p) (colorFunc newObj) (brightness o)]
          else [])
      ++ paint (brightness o) (Z.of_nat p + 1) (drop (S p) (resourceList o))
      ++ clear (len (resourceList o)) ++ [blinkt_Show]).
Proof.
  intros Hl Hk Hp Hr Hc. unfold UpdateFunc, keyFunc. rewrite Hk. simpl.
  rewrite Hp, Hr, decide_False by done.
  pose proof (lookup_lt_Some _ _ _ Hr) as Hlt.
  destruct (Forall_steady_split _ p Hl) as [Hpre Hpost].
  assert (Hlen : len (take p (resourceList o)) = Z.of_nat p)
    by (unfold len; rewrite length_take; lia).
  rewrite (updateBlinkt_one _ (take p (resourceList o))
             {| key := key r; color := colorFunc newObj; state := updated |}
             (drop (S p) (resourceList o)))
    by (done || (simpl; by rewrite <-insert_take_drop)).
  change (settled [{| key := key r; color := colorFunc newObj; state := updated |}])
    with [{| key := key r; color := colorFunc newObj; state := unchanged |}].
  simpl. rewrite Hlen, app_nil_r.
  rewrite (insert_take_drop (resourceList o) p) by done.
  replace (Z.of_nat p + len [{| key := key r; color := colorFunc newObj;
                                state := unchanged |}]
           + len (drop (S p) (resourceList o)))
    with (len (resourceList o))
    by (unfold len; simpl; rewrite length_drop; lia).
  done.
Qed.

Lemma DeleteFunc_steady o obj k p r :
  Forall (λ r, state r = unchanged) (resourceList o) →
  MetaNamespaceKey obj = Some k →
  getResource k (resourceList o) = Some p →
  resourceList o !! p = Some r →
  DeleteFunc o obj =
  Ok ({| brightness := brightness o;
         resourceList := take p (resourceList o) ++ drop (S p) (resourceList o) |},
      paint (brightness o) 0 (take p (resourceList o))
      ++ (if decide (Z.of_nat p < 8)
          then [blinkt_Flash (Z.of_nat p) (color r) (brightness o)
                  2 (50 * Millisecond)]
          else [])
      ++ paint (brightness o) (Z.of_nat p) (drop (S p) (resourceList o))
      ++ clear (len (resourceList o) - 1) ++ [blinkt_Show]).
Proof.
  intros Hl Hk Hp Hr. unfold DeleteFunc, keyFunc. rewrite Hk. simpl.
  rewrite Hp, Hr.
  pose proof (lookup_lt_Some _ _ _ Hr) as Hlt.
  destruct (Forall_steady_split _ p Hl) as [Hpre Hpost].
  assert (Hlen : len (take p (resourceList o)) = Z.of_nat p)
    by (unfold len; rewrite length_take; lia).
  rewrite (updateBlinkt_one _ (take p (resourceList o))
             {| key := key r; color := color r; state := deleted |}
             (drop (S p) (resourceList o)))
    by (done || (simpl; by rewrite <-insert_take_drop)).
  change (settled [{| key := key r; color := color r; state := deleted |}])
    with (@nil resource).
  simpl. rewrite Hlen, app_nil_r.
  change (len []) with 0. rewrite Z.add_0_r.
  replace (Z.of_nat p + len (drop (S p) (resourceList o)))
    with (len (resourceList o) - 1)
    by (unfold len; rewrite length_drop; lia).
  done.
Qed.

(** ** Further properties of the lookup and of the callbacks *)

(** X1: the lookup by key returns position [p] exactly when the record at
    position [p] has the key and no record before it has: it finds the
    first record with the key, and finds one whenever there is one. *)
Theorem X1_getResource_returns_first_match k l :
  (∀ p, getResource k l = Some p ↔
        ∃ r, l !! p = Some r ∧ key r = k ∧
             ∀ q r', (q < p)%nat → l !! q = Some r' → key r' ≠ k) ∧
  (getResource k l = None ↔ k ∉ key <$> l).
Proof. split; [apply getResource_first|apply getResource_None]. Qed.

(** X2: an add event panics exactly when no key can be derived from the
    object; otherwise, whatever the collection holds, the callback
    returns, the collection it leaves holds a record with the object's
    key and colour and state [unchanged], and the lookup by that key
    succeeds on it. *)
Theorem X2_add_panics_only_without_key o obj :
  (AddFunc o obj = Panic ↔ MetaNamespaceKey obj = None) ∧
  ∀ k, MetaNamespaceKey obj = Some k →
       ∃ o' cs p,
         AddFunc o obj = Ok (o', cs) ∧
         {| key := k; color := colorFunc obj; state := unchanged |}
           ∈ resourceList o' ∧
         getResource k (resourceList o') = Some p.
Proof.
  assert (Hok : ∀ k, MetaNamespaceKey obj = Some k →
            ∃ o' cs p,
              AddFunc o obj = Ok (o', cs) ∧
              {| key := k; color := colorFunc obj; state := unchanged |}
                ∈ resourceList o' ∧
              getResource k (resourceList o') = Some p).
  { intros k Hk. unfold AddFunc, keyFunc. rewrite Hk. simpl.
    rewrite updateBlinkt_spec. simpl.
    assert (Hin : {| key := k; color := colorFunc obj; state := unchanged |}
                    ∈ settled (resourceList o
                               ++ [{| key := k; color := colorFunc obj;
                                      state := added |}])).
    { rewrite settled_app. apply elem_of_app. right.
      rewrite settled_cons. simpl. apply list_elem_of_singleton. done. }
    destruct (getResource_tracked k
                (settled (resourceList o
                          ++ [{| key := k; color := colorFunc obj;
                                 state := added |}])))
      as (p & r & Hp & _).
    { apply list_elem_of_fmap. eexists. split; [|exact Hin]. done. }
    eauto 10. }
  split; [|exact Hok]. split.
  - destruct (MetaNamespaceKey obj) as [k|] eqn:Hk; [|done].
    destruct (Hok k eq_refl) as (o' & cs & p & Hadd & _). congruence.
  - intros Hk. unfold AddFunc, keyFunc. by rewrite Hk.
Qed.

(** X3: an update or a delete event panics exactly when no key can be
    derived from the object or no record of the collection has the key;
    in every other case the callback returns. *)
Theorem X3_update_and_delete_panic_exactly_on_miss o oldObj obj :
  (UpdateFunc o oldObj obj = Panic ↔
   ∀ k, MetaNamespaceKey obj = Some k → k ∉ key <$> resourceList o) ∧
  (DeleteFunc o obj = Panic ↔
   ∀ k, MetaNamespaceKey obj = Some k → k ∉ key <$> resourceList o).
Proof.
  unfold UpdateFunc, DeleteFunc, keyFunc.
  destruct (MetaNamespaceKey obj) as [k|]; simpl; [|by split; split].
  destruct (getResource k (resourceList o)) as [p|] eqn:Hg.
  - destruct (getResource_Some _ _ _ Hg) as (r & Hr & Hk). rewrite Hr.
    assert (Hin : k ∈ key <$> resourceList o).
    { apply list_elem_of_fmap. exists r. split; [done|].
      by eapply list_elem_of_lookup_2. }
    split; (split; [|intros Hn; by destruct (Hn k eq_refl)]).
    + destruct (decide _); [done|]. by rewrite updateBlinkt_spec.
    + by rewrite updateBlinkt_spec.
  - apply getResource_None in Hg.
    split; (split; [by intros _ k' [= <-]|done]).
Qed.

Lemma getResource_keys k (l1 : list resource) : ∀ l2,
  key <$> l1 = key <$> l2 → getResource k l1 = getResource k l2.
Proof.
  induction l1 as [|r1 l1 IH]; intros [|r2 l2] Hk; try done.
  injection Hk as Hr Hl. rewrite !getResource_cons, Hr, (IH l2) by done. done.
Qed.

(** X4: from a collection whose records are all [unchanged], an add event
    with a derivable key appends one [unchanged] record with the object's
    key and colour and leaves every other record where it was; the calls
    repaint the records already shown, flash and set the new record's
    slot when its position is below 8, clear the slots that follow and
    commit.  When the key was not tracked, the lookup by that key now
    returns the new, last position. *)
Theorem X4_add_appends_and_shows_the_record o obj k :
  Forall (λ r, state r = unchanged) (resourceList o) →
  MetaNamespaceKey obj = Some k →
  let n := len (resourceList o) in
  let r := {| key := k; color := colorFunc obj; state := unchanged |} in
  AddFunc o obj =
    Ok ({| brightness := brightness o; resourceList := resourceList o ++ [r] |},
        paint (brightness o) 0 (resourceList o)
        ++ (if decide (n < 8)
            then [blinkt_Flash n (colorFunc obj) (brightness o) 2 (50 * Millisecond);
                  blinkt_Set n (colorFunc obj) (brightness o)]
            else [])
        ++ clear (n + 1) ++ [blinkt_Show]) ∧
  (k ∉ key <$> resourceList o →
   getResource k (resourceList o ++ [r]) = Some (length (resourceList o))).
Proof.
  intros Hl Hk n r. split; [by apply (AddFunc_steady o obj k)|].
  intros Hn. by apply getResource_app_fresh.
Qed.

(** X5: from a collection whose records are all [unchanged], an update
    event whose key the lookup finds at position [p] and whose colour
    differs from the record's replaces the colour of that record alone:
    the collection keeps its length, its order and its keys, the lookup
    still returns [p], and the calls repaint the slots before [p], flash
    and set slot [p] in the new colour when [p < 8], repaint the slots
    after it, clear the slots past the collection and commit. *)
Theorem X5_update_recolors_one_record o oldObj newObj k p r :
  Forall (λ r, state r = unchanged) (resourceList o) →
  MetaNamespaceKey newObj = Some k →
  getResource k (resourceList o) = Some p →
  resourceList o !! p = Some r →
  colorFunc newObj ≠ color r →
  let l' := <[p := {| key := key r; color := colorFunc newObj; state := unchanged |}]>
              (resourceList o) in
  UpdateFunc o oldObj newObj =
    Ok ({| brightness := brightness o; resourceList := l' |},
        paint (brightness o) 0 (take p (resourceList o))
        ++ (if decide (Z.of_nat p < 8)
            then [blinkt_Flash (Z.of_nat p) (colorFunc newObj) (brightness o)
                    2 (50 * Millisecond);
                  blinkt_Set (Z.of_nat p) (colorFunc newObj) (brightness o)]
            else [])
        ++ paint (brightness o) (Z.of_nat p + 1) (drop (S p) (resourceList o))
        ++ clear (len (resourceList o)) ++ [blinkt_Show]) ∧
  length l' = length (resourceList o) ∧
  key <$> l' = key <$> resourceList o ∧
  (∀ q, q ≠ p → l' !! q = resourceList o !! q) ∧
  getResource k l' = Some p.
Proof.
  intros Hl Hk Hp Hr Hc l'.
  assert (Hkeys : key <$> l' = key <$> resourceList o)
    by (by apply (keys_insert_same _ _ r)).
  split; [by apply (UpdateFunc_steady o oldObj newObj k p r)|].
  split; [apply length_insert|].
  split; [done|]. split.
  - intros q Hq. by apply list_lookup_insert_ne.
  - by rewrite (getResource_keys k l' (resourceList o)).
Qed.

(** X6: from a collection whose records are all [unchanged], a delete
    event whose key the lookup finds at position [p] removes that record
    alone: the records before it stay, those after it move one position
    earlier, and the calls repaint the slots before [p], flash slot [p]
    in the colour of the removed record when [p < 8], repaint from slot
    [p] on the records that followed it, clear the slots past the
    collection and commit. *)
Theorem X6_delete_removes_one_record o obj k p r :
  Forall (λ r, state r = unchanged) (resourceList o) →
  MetaNamespaceKey obj = Some k →
  getResource k (resourceList o) = Some p →
  resourceList o !! p = Some r →
  let l' := take p (resourceList o) ++ drop (S p) (resourceList o) in
  DeleteFunc o obj =
    Ok ({| brightness := brightness o; resourceList := l' |},
        paint (brightness o) 0 (take p (resourceList o))
        ++ (if decide (Z.of_nat p < 8)
            then [blinkt_Flash (Z.of_nat p) (color r) (brightness o)
                    2 (50 * Millisecond)]
            else [])
        ++ paint (brightness o) (Z.of_nat p) (drop (S p) (resourceList o))
        ++ clear (len (resourceList o) - 1) ++ [blinkt_Show]) ∧
  S (length l') = length (resourceList o) ∧
  (∀ q, (q < p)%nat → l' !! q = resourceList o !! q) ∧
  (∀ q, (p ≤ q)%nat → l' !! q = resourceList o !! S q).
Proof.
  intros Hl Hk Hp Hr l'.
  pose proof (lookup_lt_Some _ _ _ Hr) as Hlt.
  assert (Hn : length (take p (resourceList o)) = p) by (rewrite length_take; lia).
  split; [by apply (DeleteFunc_steady o obj k p r)|]. split; [|split].
  - unfold l'. rewrite length_app, length_take, length_drop. lia.
  - intros q Hq. unfold l'. rewrite lookup_app_l by lia. by rewrite lookup_take_lt.
  - intros q Hq. unfold l'. rewrite lookup_app_r by lia.
    rewrite Hn, lookup_drop. f_equal. lia.
Qed.

(** X7: from a collection whose records are all [unchanged], adding an
    object whose key is not tracked and deleting it again gives back the
    controller as it was. *)
Theorem X7_add_then_delete_restores_the_collection o obj k :
  Forall (λ r, state r = unchanged) (resourceList o) →
  MetaNamespaceKey obj = Some k →
  k ∉ key <$> resourceList o →
  ∃ cs, run o [Add obj; Delete obj] = Ok (o, cs).
Proof.
  intros Hl Hk Hn. simpl. rewrite (AddFunc_steady o obj k Hl Hk). simpl.
  set (r := {| key := k; color := colorFunc obj; state := unchanged |}).
  erewrite (DeleteFunc_steady _ obj k (length (resourceList o)) r); simpl.
  - rewrite take_app_length, drop_ge by (rewrite length_app; simpl; lia).
    rewrite app_nil_r, ControllerObj_eta. simpl. eauto.
  - apply Forall_app. split; [done|]. by constructor.
  - done.
  - by apply getResource_app_fresh.
  - by apply list_lookup_middle.
Qed.

(** X8: from a collection whose records are all [unchanged] and whose
    keys are distinct, a delete event for a tracked key returns, leaves
    the key untracked, and a second delete event or an update event for
    the same object then panics. *)
Theorem X8_delete_twice_panics o oldObj obj k :
  Forall (λ r, state r = unchanged) (resourceList o) →
  NoDup (key <$> resourceList o) →
  MetaNamespaceKey obj = Some k →
  k ∈ key <$> resourceList o →
  ∃ o' cs,
    DeleteFunc o obj = Ok (o', cs) ∧
    (k ∉ key <$> resourceList o') ∧
    DeleteFunc o' obj = Panic ∧
    UpdateFunc o' oldObj obj = Panic.
Proof.
  intros Hl Hnd Hk Hin.
  destruct (getResource_tracked _ _ Hin) as (p & r & Hp & Hr & Hkr).
  eexists _, _. split; [by apply (DeleteFunc_steady o obj k p r)|]. simpl.
  assert (Hout : k ∉ key <$> take p (resourceList o) ++ drop (S p) (resourceList o)).
  { rewrite <-(take_drop_middle _ _ _ Hr), fmap_app, fmap_cons, Hkr in Hnd.
    apply NoDup_app in Hnd as (_ & Hpre & Hpost).
    apply NoDup_cons in Hpost as [Hpost _].
    rewrite fmap_app. intros [Hx|Hx]%elem_of_app; [|done].
    apply (Hpre k Hx). by left. }
  split; [done|].
  apply getResource_None in Hout.
  unfold DeleteFunc, UpdateFunc, keyFunc. rewrite Hk. simpl. by rewrite Hout.
Qed.

(** X9: from a collection whose records are all [unchanged], an update
    event for a tracked key returns, and the same object delivered again
    then changes nothing and makes no display call: the second update
    finds the colour it brings. *)
Theorem X9_update_twice_is_update_once o oldObj oldObj' newObj k :
  Forall (λ r, state r = unchanged) (resourceList o) →
  MetaNamespaceKey newObj = Some k →
  k ∈ key <$> resourceList o →
  ∃ o' cs,
    UpdateFunc o oldObj newObj = Ok (o', cs) ∧
    UpdateFunc o' oldObj' newObj = Ok (o', []).
Proof.
  intros Hl Hk Hin.
  destruct (getResource_tracked _ _ Hin) as (p & r & Hp & Hr & Hkr).
  destruct (decide (colorFunc newObj = color r)) as [Hc|Hc].
  - exists o, []. unfold UpdateFunc, keyFunc. rewrite Hk. simpl.
    rewrite Hp, Hr, decide_True by done. done.
  - eexists _, _. split; [by apply (UpdateFunc_steady o oldObj newObj k p r)|].
    unfold UpdateFunc, keyFunc. rewrite Hk. simpl.
    rewrite (getResource_keys k _ (resourceList o))
      by (by apply (keys_insert_same _ _ r)).
    rewrite Hp, list_lookup_insert_eq by (by eapply lookup_lt_Some).
    simpl. by rewrite decide_True.
Qed.

(** ** What a render pass calls *)

Lemma walk_calls_expected b l0 l : ∀ i,
  0 ≤ i → (∀ r, r ∈ l → r ∈ l0) →
  Forall (expected_call b l0) (walk_calls b i l).
Proof.
  induction l as [|r l IH]; intros i Hi Hsub; [by constructor|].
  assert (Hr : r ∈ l0) by (apply Hsub; by left).
  assert (Hl : ∀ r', r' ∈ l → r' ∈ l0) by (intros r' ?; apply Hsub; by right).
  simpl. destruct (state r); apply Forall_app; (split; [|apply IH; [lia|done]]);
    (destruct (decide (i < 8)); [|by constructor]);
    repeat (constructor; [simpl; eauto 10 with lia|]); constructor.
Qed.

Lemma clear_expected b l0 n : 0 ≤ n → Forall (expected_call b l0) (clear n).
Proof.
  intros Hn. unfold clear. apply Forall_fmap, Forall_forall.
  intros j Hj%elem_of_seqZ. simpl. split; [lia|]. by right.
Qed.

Lemma walk_calls_no_Show b l : ∀ i, blinkt_Show ∉ walk_calls b i l.
Proof.
  induction l as [|r l IH]; intros i; [apply not_elem_of_nil|].
  simpl. destruct (state r); rewrite elem_of_app; intros [H|H];
    try (by eapply IH);
    destruct (decide (i < 8));
    repeat (apply elem_of_cons in H as [?|H]; [done|]); by apply elem_of_nil in H.
Qed.

Lemma clear_no_Show n : blinkt_Show ∉ clear n.
Proof. unfold clear. intros (j & Hj & _)%list_elem_of_fmap. done. Qed.

Lemma updateBlinkt_commits_last o o' cs :
  updateBlinkt o = Ok (o', cs) →
  ∃ cs', cs = cs' ++ [blinkt_Show] ∧ blinkt_Show ∉ cs'.
Proof.
  rewrite updateBlinkt_spec. intros [= _ <-]. eexists. rewrite app_assoc.
  split; [done|]. rewrite elem_of_app. intros [H|H].
  - by eapply walk_calls_no_Show.
  - by eapply clear_no_Show.
Qed.

(** X10: every call of a render pass is one the collection accounts for:
    a [Flash] or a [Set] names a slot from 0 to 7; a [Flash] has the
    controller's brightness, 2 cycles, an interval of 50 ms and the colour
    of a record of the collection; a [Set] has either the controller's
    brightness and the colour of a record of the collection, or [Off]
    with brightness 0.  The display is never addressed outside its eight
    slots, however long the collection is. *)
Theorem X10_render_calls_stay_on_the_display o o' cs :
  updateBlinkt o = Ok (o', cs) →
  Forall (expected_call (brightness o) (resourceList o)) cs.
Proof.
  rewrite updateBlinkt_spec. intros [= _ <-].
  apply Forall_app. split; [by apply walk_calls_expected|].
  apply Forall_app. split; [|by repeat constructor].
  apply clear_expected. unfold len. lia.
Qed.

(** X11: a callback that returns either makes no display call at all or
    ends with [Show] and calls [Show] nowhere else: the controller commits
    a frame once per event, after all its [Flash] and [Set] calls. *)
Theorem X11_callback_commits_once_and_last o e o' cs :
  handle o e = Ok (o', cs) →
  cs = [] ∨ ∃ cs', cs = cs' ++ [blinkt_Show] ∧ blinkt_Show ∉ cs'.
Proof.
  destruct e as [obj|oldObj newObj|obj]; simpl.
  - unfold AddFunc. destruct (keyFunc obj) as [k|]; [|done]. simpl.
    intros H. right. by eapply updateBlinkt_commits_last.
  - unfold UpdateFunc. destruct (keyFunc newObj) as [k|]; [|done]. simpl.
    destruct (getResource k (resourceList o)) as [p|]; [|done].
    destruct (resourceList o !! p) as [r|]; [|done].
    destruct (decide _); [intros [= _ <-]; by left|].
    intros H. right. by eapply updateBlinkt_commits_last.
  - unfold DeleteFunc. destruct (keyFunc obj) as [k|]; [|done]. simpl.
    destruct (getResource k (resourceList o)) as [p|]; [|done].
    destruct (resourceList o !! p) as [r|]; [|done].
    intros H. right. by eapply updateBlinkt_commits_last.
Qed.

(** The pixel buffer after the calls of a walk, when a [Flash] leaves the
    slots other than its own alone: the slots below the start are
    untouched and each surviving record has its colour in its slot. *)
Lemma perform_walk b l :
  (∀ d i c b' n t j, j ≠ i → buffer (flash d i c b' n t) j = buffer d j) →
  ∀ i d, 0 ≤ i →
    (∀ j, j < i → buffer (perform_all d (walk_calls b i l)) j = buffer d j) ∧
    (∀ (k : nat) r, settled l !! k = Some r → i + Z.of_nat k < 8 →
       buffer (perform_all d (walk_calls b i l)) (i + Z.of_nat k) = Pixel (color r) b).
Proof.
  intros Hloc. induction l as [|r l IH]; intros i d Hi; [by split|].
  simpl. rewrite settled_cons.
  destruct (state r) eqn:E; simpl; rewrite perform_all_app.
  1, 2, 4:
    match goal with
    | |- context [perform_all (perform_all _ ?cs) _] => set (d1 := perform_all d cs)
    end;
    assert (Hlow : ∀ j, j < i → buffer d1 j = buffer d j)
      by (intros j Hj; subst d1; destruct (decide (i < 8)); simpl;
          rewrite ?decide_False, ?Hloc by lia; done);
    assert (Hat : i < 8 → buffer d1 i = Pixel (color r) b)
      by (intros H8; subst d1; rewrite decide_True by done; simpl;
          by rewrite decide_True);
    destruct (IH (i + 1) d1 ltac:(lia)) as [IH1 IH2];
    (split;
     [ intros j Hj; rewrite IH1 by lia; by apply Hlow
     | intros [|k] r0 Hr0 Hk; simpl in Hr0;
       [ injection Hr0 as <-; rewrite Z.add_0_r in *;
         rewrite IH1 by lia; by apply Hat
       | replace (i + Z.of_nat (S k)) with (i + 1 + Z.of_nat k) by lia;
         apply IH2; [done|lia] ] ]).
  set (d1 := perform_all d (if decide (i < 8)
                            then [blinkt_Flash i (color r) b 2 (50 * Millisecond)]
                            else [])).
  assert (Hlow : ∀ j, j < i → buffer d1 j = buffer d j)
    by (intros j Hj; subst d1; destruct (decide (i < 8)); simpl;
        rewrite ?Hloc by lia; done).
  destruct (IH i d1 Hi) as [IH1 IH2]. split.
  - intros j Hj. rewrite IH1 by lia. by apply Hlow.
  - intros k r0 Hr0 Hk. by apply IH2.
Qed.

(** X12: provided a [Flash] leaves the slots other than its own as they
    were, the frame a render pass commits is determined by the collection
    the pass returns, whatever the display held before and whatever was
    flashed on the way: slot [j] of the eight shows the colour of the
    record at position [j] at the controller's brightness, or is [Off]
    with brightness 0 when the collection has no such position. *)
Theorem X12_committed_frame_shows_the_collection o o' cs :
  (∀ d i c b n t j, j ≠ i → buffer (flash d i c b n t) j = buffer d j) →
  updateBlinkt o = Ok (o', cs) →
  ∀ d j, 0 ≤ j < 8 →
    shown (perform_all d cs) j =
    match resourceList o' !! Z.to_nat j with
    | Some r => Pixel (color r) (brightness o)
    | None => Pixel Off 0%float
    end.
Proof.
  intros Hloc. rewrite updateBlinkt_spec. intros [= <- <-] d j Hj. simpl.
  rewrite !perform_all_app. simpl.
  set (l := resourceList o). set (b := brightness o).
  destruct (perform_all_clear (seqZ (len (settled l)) (8 - len (settled l)))
              (perform_all d (walk_calls b 0 l))) as [_ Hb].
  unfold clear. rewrite Hb. clear Hb.
  destruct (decide (j ∈ seqZ (len (settled l)) (8 - len (settled l)))) as [Hin|Hin];
    rewrite elem_of_seqZ in Hin; unfold len in *.
  - rewrite (proj2 (lookup_ge_None (settled l) (Z.to_nat j))) by lia. done.
  - destruct (lookup_lt_is_Some_2 (settled l) (Z.to_nat j)) as [r Hr]; [lia|].
    rewrite Hr.
    destruct (perform_walk b l Hloc 0 d ltac:(lia)) as [_ Hw].
    specialize (Hw (Z.to_nat j) r Hr). rewrite Z.add_0_l, Z2Nat.id in Hw by lia.
    apply Hw. lia.
Qed.

(** X13: whatever events the controller has handled since it was created,
    if none made it panic then its brightness is the one it was created
    with and every record it tracks is [unchanged]: the states [added],
    [updated] and [deleted] never outlive the callback that sets them. *)
Theorem X13_between_callbacks_all_records_are_steady b es o cs :
  run (NewController b) es = Ok (o, cs) →
  brightness o = b ∧ Forall (λ r, state r = unchanged) (resourceList o).
Proof.
  intros Hrun. split; [|by eapply run_all_steady; [|exact Hrun]; constructor].
  assert (Hb : ∀ es o0 o1 cs1, run o0 es = Ok (o1, cs1) → brightness o1 = brightness o0).
  { clear. induction es as [|e es IH]; intros o0 o1 cs1; simpl.
    - by intros [= <- _].
    - destruct (handle o0 e) as [[o2 cs2]|] eqn:He; [|done]. simpl.
      destruct (run o2 es) as [[o3 cs3]|] eqn:Hr; [|done]. simpl.
      intros [= <- _]. rewrite (IH _ _ _ Hr). clear IH Hr.
      destruct e as [obj|oldObj newObj|obj]; simpl in He.
      + unfold AddFunc in He. destruct (keyFunc obj); [|done]. simpl in He.
        rewrite updateBlinkt_spec in He. by injection He as <- _.
      + unfold UpdateFunc in He. destruct (keyFunc newObj) as [k|]; [|done].
        simpl in He. destruct (getResource k (resourceList o0)) as [p|]; [|done].
        destruct (resourceList o0 !! p) as [r|]; [|done].
        destruct (decide _); [by injection He as <- _|].
        rewrite updateBlinkt_spec in He. by injection He as <- _.
      + unfold DeleteFunc in He. destruct (keyFunc obj) as [k|]; [|done].
        simpl in He. destruct (getResource k (resourceList o0)) as [p|]; [|done].
        destruct (resourceList o0 !! p) as [r|]; [|done].
        rewrite updateBlinkt_spec in He. by injection He as <- _. }
  by rewrite (Hb _ _ _ _ Hrun).
Qed.

Lemma paint_Forall (P : call → Prop) b i l :
  (∀ j c b', P (blinkt_Set j c b')) → Forall P (paint b i l).
Proof.
  intros HP. apply Forall_forall. intros c (j & r & -> & _)%elem_of_lookup_imap.
  apply HP.
Qed.

Lemma clear_Forall (P : call → Prop) n :
  (∀ j c b', P (blinkt_Set j c b')) → Forall P (clear n).
Proof. intros HP. unfold clear. apply Forall_fmap, Forall_true. intros j. apply HP. Qed.

(** X14: from a collection of more than 8 records, all [unchanged], a
    delete event whose key the lookup finds at a position [p < 8] brings
    the record that was ninth, tracked but not shown, to position 7: the
    pass sets slot 7 to its colour, and the only [Flash] of the pass is on
    slot [p], for the record that leaves. *)
Theorem X14_delete_brings_the_ninth_record_on_display o obj k p r r8 :
  Forall (λ r, state r = unchanged) (resourceList o) →
  MetaNamespaceKey obj = Some k →
  getResource k (resourceList o) = Some p →
  resourceList o !! p = Some r →
  (p < 8)%nat →
  resourceList o !! 8%nat = Some r8 →
  ∃ o' cs,
    DeleteFunc o obj = Ok (o', cs) ∧
    resourceList o' !! 7%nat = Some r8 ∧
    blinkt_Set 7 (color r8) (brightness o) ∈ cs ∧
    blinkt_Flash (Z.of_nat p) (color r) (brightness o) 2 (50 * Millisecond) ∈ cs ∧
    Forall (λ c, match c with
                 | blinkt_Flash i _ _ _ _ => i = Z.of_nat p
                 | _ => True
                 end) cs.
Proof.
  intros Hl Hk Hp Hr H8 Hr8.
  pose proof (lookup_lt_Some _ _ _ Hr) as Hlt.
  assert (Hn : length (take p (resourceList o)) = p) by (rewrite length_take; lia).
  eexists _, _. split; [by apply (DeleteFunc_steady o obj k p r)|]. simpl.
  rewrite (decide_True (P := Z.of_nat p < 8)) by lia.
  split; [|split; [|split]].
  - rewrite lookup_app_r by lia. rewrite Hn, lookup_drop, <-Hr8. f_equal. lia.
  - rewrite !elem_of_app. right. right. left.
    apply elem_of_lookup_imap. exists (7 - p)%nat, r8. split; [f_equal; lia|].
    rewrite lookup_take_lt by lia. rewrite lookup_drop, <-Hr8. f_equal. lia.
  - rewrite !elem_of_app. right. left. by left.
  - repeat (apply Forall_app; split);
      first [ by apply paint_Forall | by apply clear_Forall
            | by repeat constructor ].
Qed.

(** X15: a render pass that follows another one, with no event in
    between, leaves the collection as the first pass returned it and
    flashes nothing: it sets each slot that has a record to the record's
    colour, clears the others and commits. *)
Theorem X15_second_pass_repaints_without_flash o o1 cs1 :
  updateBlinkt o = Ok (o1, cs1) →
  updateBlinkt o1 =
  Ok (o1, paint (brightness o) 0 (resourceList o1)
          ++ clear (len (resourceList o1)) ++ [blinkt_Show]).
Proof.
  rewrite updateBlinkt_spec. intros [= <- _].
  rewrite updateBlinkt_spec. simpl.
  pose proof (settled_all_steady (resourceList o)) as Hs.
  rewrite (settled_steady _ Hs), (walk_calls_paint _ _ _ Hs). done.
Qed.

Lemma getResource_app_l k l1 l2 p :
  getResource k l1 = Some p → getResource k (l1 ++ l2) = Some p.
Proof.
  revert p. induction l1 as [|r l1 IH]; intros p; [done|]. simpl.
  rewrite !getResource_cons. destruct (decide (key r = k)); [done|].
  destruct (getResource k l1) as [p'|]; [|done].
  intros [= <-]. by rewrite (IH p').
Qed.

(** X16: from a collection whose records are all [unchanged], an add
    event whose key is already tracked still appends a record, and the
    lookup by that key keeps returning the position of the older record:
    later update and delete events for the key reach the older record,
    not the one just added. *)
Theorem X16_add_of_tracked_key_is_shadowed o obj k p :
  Forall (λ r, state r = unchanged) (resourceList o) →
  MetaNamespaceKey obj = Some k →
  getResource k (resourceList o) = Some p →
  ∃ o' cs,
    AddFunc o obj = Ok (o', cs) ∧
    length (resourceList o') = S (length (resourceList o)) ∧
    (p < length (resourceList o))%nat ∧
    getResource k (resourceList o') = Some p ∧
    resourceList o' !! p = resourceList o !! p.
Proof.
  intros Hl Hk Hp.
  destruct (getResource_Some _ _ _ Hp) as (r & Hr & _).
  pose proof (lookup_lt_Some _ _ _ Hr) as Hlt.
  eexists _, _. split; [by apply (AddFunc_steady o obj k)|]. simpl.
  split; [rewrite length_app; simpl; lia|]. split; [done|].
  split; [by apply getResource_app_l|]. by apply lookup_app_l.
Qed.

End controller.

(** * The theorems at concrete inputs

    Objects are [sample]s, [blinkt.Off] is taken to be ["000000"] and the
    brightness is [0.5]. *)

(** C1, as stated, fails: two add events with the same key leave two
    records with that key. *)
Lemma C1_two_adds_of_one_key_counterexample :
  ∃ o cs,
    run "000000" sample sample_key sample_color (NewController 0.5)
        [Add sample ("a", "red"); Add sample ("a", "red")] = Ok (o, cs) ∧
    resourceList o = [Resource "a" "red" unchanged; Resource "a" "red" unchanged] ∧
    ¬ NoDup (key <$> resourceList o).
Proof.
  eexists _, _. split; [vm_compute; reflexivity|]. split; [reflexivity|].
  simpl. intros H. apply NoDup_cons in H as [H _]. apply H. left.
Qed.

Lemma C1_witness :
  fresh_adds "000000" sample sample_key sample_color (NewController 0.5)
    [Add sample ("a", "red"); Add sample ("b", "blue");
     Update sample ("b", "blue") ("b", "green"); Delete sample ("a", "red");
     Add sample ("a", "red")] ∧
  NoDup (key <$> [Resource "b" "green" unchanged; Resource "a" "red" unchanged]).
Proof.
  assert (Hf : fresh_adds "000000" sample sample_key sample_color (NewController 0.5)
    [Add sample ("a", "red"); Add sample ("b", "blue");
     Update sample ("b", "blue") ("b", "green"); Delete sample ("a", "red");
     Add sample ("a", "red")]).
  { do 5 (cbn [fresh_adds]; split;
          [ intros obj k Ho Hk; try discriminate Ho;
            injection Ho as <-; injection Hk as <-; compute_done
          | lazymatch goal with
            | |- context [handle ?off ?O ?kf ?cf ?o ?e] =>
                let v := eval vm_compute in (handle off O kf cf o e) in
                change (handle off O kf cf o e) with v; cbv beta iota
            end ]).
    exact I. }
  split; [exact Hf|].
  eapply (C1_keys_unique_when_adds_are_fresh "000000" sample sample_key sample_color
            0.5 _ (Controller 0.5 _) _ Hf).
  vm_compute. reflexivity.
Defined.
Lemma C2_witness :
  sample_key ("b", "blue") = Some "b" ∧
  ("b" ∉ key <$> [Resource "a" "red" unchanged]) ∧
  getResource "b" [Resource "a" "red" unchanged] = None ∧
  UpdateFunc "000000" sample sample_key sample_color
    (Controller 0.5 [Resource "a" "red" unchanged]) ("b", "red") ("b", "blue") = Panic ∧
  DeleteFunc "000000" sample sample_key
    (Controller 0.5 [Resource "a" "red" unchanged]) ("b", "blue") = Panic.
Proof.
  assert (Hn : "b" ∉ key <$> [Resource "a" "red" unchanged]) by compute_done.
  split; [reflexivity|]. split; [exact Hn|].
  exact (C2_event_for_untracked_key_panics "000000" sample sample_key sample_color
           (Controller 0.5 [Resource "a" "red" unchanged]) ("b", "red") ("b", "blue")
           "b" eq_refl Hn).
Defined.

Lemma C3_witness :
  let o := Controller 0.5 [Resource "a" "red" unchanged; Resource "b" "blue" deleted;
                           Resource "c" "green" unchanged] in
  let w := {| idx := 1; coll := resourceList o; ops := [blinkt_Set 0 "red" 0.5] |} in
  visits 0.5 {| idx := 0; coll := resourceList o; ops := [] |} w ∧
  index (coll w) 1 = Ok (Resource "b" "blue" deleted) ∧
  ∃ w',
    body 0.5 w = Ok w' ∧
    idx (post w') = 1 ∧
    coll (post w') = [Resource "a" "red" unchanged; Resource "c" "green" unchanged] ∧
    ∃ o' cs,
      updateBlinkt "000000" o = Ok (o', cs) ∧
      resourceList o' = [Resource "a" "red" unchanged; Resource "c" "green" unchanged].
Proof.
  intros o w.
  destruct (visits_at_position o [Resource "a" "red" unchanged]
              (Resource "b" "blue" deleted) [Resource "c" "green" unchanged]
              eq_refl ltac:(compute_done)) as [Hv Hi].
  change (visits 0.5 {| idx := 0; coll := resourceList o; ops := [] |} w) in Hv.
  change (index (coll w) (idx w) = Ok (Resource "b" "blue" deleted)) in Hi.
  split; [exact Hv|]. split; [exact Hi|].
  destruct (C3_removed_record_is_deleted_and_later_records_shift "000000" o w _
              Hv Hi eq_refl)
    as (w' & Hb & Hidx & Hcoll & _ & _ & _ & o' & cs & Hu & _ & Hl).
  exists w'. split; [exact Hb|]. split; [exact Hidx|]. split; [exact Hcoll|].
  exists o', cs. split; [exact Hu|]. rewrite Hl. reflexivity.
Defined.

Lemma C4_witness :
  let o := Controller 0.5 [Resource "a" "red" unchanged] in
  sample_key ("a", "red") = Some "a" ∧
  getResource "a" (resourceList o) = Some 0%nat ∧
  resourceList o !! 0%nat = Some (Resource "a" "red" unchanged) ∧
  sample_color ("a", "red") = "red" ∧
  UpdateFunc "000000" sample sample_key sample_color o ("a", "red") ("a", "red")
  = Ok (o, []).
Proof.
  intros o. do 4 (split; [reflexivity|]).
  exact (proj2 (C4_update_with_same_color_changes_nothing "000000" sample sample_key
                  sample_color o ("a", "red") ("a", "red") "a" 0%nat
                  (Resource "a" "red" unchanged) eq_refl eq_refl eq_refl eq_refl)).
Defined.

Lemma C5_witness :
  let o := Controller 0.5 [Resource "a" "red" unchanged; Resource "b" "blue" added] in
  let w := {| idx := 1; coll := resourceList o; ops := [blinkt_Set 0 "red" 0.5] |} in
  visits 0.5 {| idx := 0; coll := resourceList o; ops := [] |} w ∧
  index (coll w) 1 = Ok (Resource "b" "blue" added) ∧
  ∃ o' rest,
    updateBlinkt "000000" o =
    Ok (o', [blinkt_Set 0 "red" 0.5]
            ++ [blinkt_Flash 1 "blue" 0.5 2 50000000; blinkt_Set 1 "blue" 0.5]
            ++ rest) ∧
    resourceList o' !! 1%nat = Some (Resource "b" "blue" unchanged).
Proof.
  intros o w.
  destruct (visits_at_position o [Resource "a" "red" unchanged]
              (Resource "b" "blue" added) [] eq_refl ltac:(compute_done)) as [Hv Hi].
  change (visits 0.5 {| idx := 0; coll := resourceList o; ops := [] |} w) in Hv.
  change (index (coll w) (idx w) = Ok (Resource "b" "blue" added)) in Hi.
  split; [exact Hv|]. split; [exact Hi|].
  exact (C5_seen_or_changed_record_flashes_then_sets "000000" o w _ Hv Hi
           (or_introl eq_refl) eq_refl).
Defined.

Lemma C6_witness :
  ∃ o' cs,
    updateBlinkt "000000" (Controller 0.5 [Resource "a" "red" deleted]) =
    Ok (o', cs ++ ((λ j, blinkt_Set j "000000" 0%float) <$> seqZ 0 8) ++ [blinkt_Show]) ∧
    resourceList o' = [].
Proof.
  destruct (C6_render_clears_slots_past_the_collection "000000" sample_flash
              (Controller 0.5 [Resource "a" "red" deleted]))
    as (o' & cs & Hu & _).
  assert (Hl : resourceList o' = []).
  { revert Hu. vm_compute. intros [= <- _]. reflexivity. }
  rewrite Hl in Hu. exists o', cs. split; [exact Hu|exact Hl].
Defined.

Lemma C7_witness :
  let o := Controller 0.5 sample_eight in
  length (resourceList o) = 8%nat ∧
  Forall (λ r, state r = unchanged) (resourceList o) ∧
  sample_key ("p8", "blue") = Some "p8" ∧
  ∃ cs,
    AddFunc "000000" sample sample_key sample_color o ("p8", "blue") =
      Ok (Controller 0.5 (sample_eight ++ [Resource "p8" "blue" unchanged]), cs) ∧
    updateBlinkt "000000" o = Ok (o, cs) ∧
    ∀ j, 0 ≤ j < 8 →
         shown (perform_all sample_flash sample_display cs) j = shown sample_display j.
Proof.
  intros o.
  assert (Hl : Forall (λ r, state r = unchanged) (resourceList o)) by compute_done.
  assert (Hc : Forall (λ r, color r = "red") (resourceList o)) by compute_done.
  split; [reflexivity|]. split; [exact Hl|]. split; [reflexivity|].
  apply (C7_ninth_record_is_tracked_but_not_shown "000000" sample sample_key
           sample_color sample_flash o ("p8", "blue") "p8" sample_display
           eq_refl Hl eq_refl).
  intros j r Hr. simpl. f_equal. symmetry.
  exact (proj1 (Forall_lookup _ _) Hc j r Hr).
Defined.

Lemma C8_witness :
  let o := Controller 0.5 [Resource "a" "red" unchanged; Resource "b" "blue" unchanged] in
  Forall (λ r, state r = unchanged) (resourceList o) ∧
  ∃ cs,
    updateBlinkt "000000" o = Ok (o, cs) ∧
    ('(o1, _) ← updateBlinkt "000000" o; updateBlinkt "000000" o1) = Ok (o, cs) ∧
    ∀ d j, shown (perform_all sample_flash (perform_all sample_flash d cs) cs) j
           = shown (perform_all sample_flash d cs) j.
Proof.
  intros o.
  assert (Hl : Forall (λ r, state r = unchanged) (resourceList o)) by compute_done.
  split; [exact Hl|].
  exact (C8_render_steady_twice "000000" sample_flash o Hl).
Defined.

Lemma C10_witness :
  let o := Controller 0.5 (sample_eight ++ [Resource "p8" "blue" deleted;
                                             Resource "p9" "green" unchanged]) in
  let w := {| idx := 8; coll := resourceList o;
              ops := walk_calls 0.5 0 sample_eight |} in
  visits 0.5 {| idx := 0; coll := resourceList o; ops := [] |} w ∧
  index (coll w) 8 = Ok (Resource "p8" "blue" deleted) ∧
  body 0.5 w =
    Ok {| idx := 7;
          coll := sample_eight ++ [Resource "p9" "green" unchanged];
          ops := walk_calls 0.5 0 sample_eight |} ∧
  ∃ o',
    updateBlinkt "000000" o = Ok (o', walk_calls 0.5 0 sample_eight ++ [blinkt_Show]) ∧
    resourceList o' = sample_eight ++ [Resource "p9" "green" unchanged].
Proof.
  intros o w.
  destruct (visits_at_position o sample_eight (Resource "p8" "blue" deleted)
              [Resource "p9" "green" unchanged] eq_refl ltac:(compute_done))
    as [Hv Hi].
  change (visits 0.5 {| idx := 0; coll := resourceList o; ops := [] |} w) in Hv.
  change (index (coll w) (idx w) = Ok (Resource "p8" "blue" deleted)) in Hi.
  split; [exact Hv|]. split; [exact Hi|].
  exact (C10_removed_record_past_the_display_is_silent "000000" o w _ Hv Hi
           eq_refl ltac:(discriminate)).
Defined.

(** The scenario of the specification: a red resource, then a blue one,
    then the first one removed.  The callbacks leave the blue record alone
    in the collection, and the last frame committed shows blue in slot 0
    and nothing in slot 1. *)
Example scenario_add_add_delete :
  ∃ cs,
    run "000000" sample sample_key sample_color (NewController 0.5)
        [Add sample ("a", "red"); Add sample ("b", "blue"); Delete sample ("a", "red")]
    = Ok (Controller 0.5 [Resource "b" "blue" unchanged], cs) ∧
    cs = [blinkt_Flash 0 "red" 0.5 2 50000000; blinkt_Set 0 "red" 0.5]
         ++ clear "000000" 1 ++ [blinkt_Show]
         ++ [blinkt_Set 0 "red" 0.5;
             blinkt_Flash 1 "blue" 0.5 2 50000000; blinkt_Set 1 "blue" 0.5]
         ++ clear "000000" 2 ++ [blinkt_Show]
         ++ [blinkt_Flash 0 "red" 0.5 2 50000000; blinkt_Set 0 "blue" 0.5]
         ++ clear "000000" 1 ++ [blinkt_Show] ∧
    shown (perform_all sample_flash sample_display cs) 0 = Pixel "blue" 0.5 ∧
    shown (perform_all sample_flash sample_display cs) 1 = Pixel "000000" 0.
Proof. eexists. split; [vm_compute; reflexivity|]. repeat split. Qed.

(** * The further properties at concrete inputs *)

Lemma X1_witness :
  getResource "a" [Resource "b" "blue" unchanged; Resource "a" "red" unchanged;
                   Resource "a" "green" unchanged] = Some 1%nat.
Proof.
  apply (proj1 (X1_getResource_returns_first_match "a" _)).
  exists (Resource "a" "red" unchanged). split; [reflexivity|]. split; [reflexivity|].
  intros [|q] r' Hq Hr'; [|lia]. injection Hr' as <-. discriminate.
Defined.

Lemma X2_witness :
  ∃ o' cs p,
    AddFunc "000000" sample sample_key sample_color
      (Controller 0.5 [Resource "a" "red" deleted]) ("b", "blue") = Ok (o', cs) ∧
    Resource "b" "blue" unchanged ∈ resourceList o' ∧
    getResource "b" (resourceList o') = Some p.
Proof.
  exact (proj2 (X2_add_panics_only_without_key "000000" sample sample_key sample_color
                  (Controller 0.5 [Resource "a" "red" deleted]) ("b", "blue"))
               "b" eq_refl).
Defined.

Lemma X3_witness :
  DeleteFunc "000000" sample sample_key
    (Controller 0.5 [Resource "a" "red" unchanged]) ("b", "blue") = Panic.
Proof.
  apply (proj2 (X3_update_and_delete_panic_exactly_on_miss "000000" sample sample_key
                  sample_color (Controller 0.5 [Resource "a" "red" unchanged])
                  ("b", "blue") ("b", "blue"))).
  intros k [= <-]. compute_done.
Defined.

Lemma X4_witness :
  let o := Controller 0.5 [Resource "a" "red" unchanged] in
  Forall (λ r, state r = unchanged) (resourceList o) ∧
  sample_key ("b", "blue") = Some "b" ∧
  AddFunc "000000" sample sample_key sample_color o ("b", "blue") =
    Ok (Controller 0.5 [Resource "a" "red" unchanged; Resource "b" "blue" unchanged],
        [blinkt_Set 0 "red" 0.5;
         blinkt_Flash 1 "blue" 0.5 2 50000000; blinkt_Set 1 "blue" 0.5]
        ++ clear "000000" 2 ++ [blinkt_Show]) ∧
  getResource "b" [Resource "a" "red" unchanged; Resource "b" "blue" unchanged]
  = Some 1%nat.
Proof.
  intros o.
  assert (Hl : Forall (λ r, state r = unchanged) (resourceList o)) by compute_done.
  destruct (X4_add_appends_and_shows_the_record "000000" sample sample_key
              sample_color o ("b", "blue") "b" Hl eq_refl) as [Hadd Hget].
  split; [exact Hl|]. split; [reflexivity|]. split; [exact Hadd|].
  apply Hget. compute_done.
Defined.

Lemma X5_witness :
  let o := Controller 0.5 [Resource "a" "red" unchanged; Resource "b" "blue" unchanged] in
  Forall (λ r, state r = unchanged) (resourceList o) ∧
  getResource "b" (resourceList o) = Some 1%nat ∧
  sample_color ("b", "green") ≠ "blue" ∧
  UpdateFunc "000000" sample sample_key sample_color o ("b", "blue") ("b", "green") =
    Ok (Controller 0.5 [Resource "a" "red" unchanged; Resource "b" "green" unchanged],
        [blinkt_Set 0 "red" 0.5;
         blinkt_Flash 1 "green" 0.5 2 50000000; blinkt_Set 1 "green" 0.5]
        ++ clear "000000" 2 ++ [blinkt_Show]) ∧
  getResource "b" [Resource "a" "red" unchanged; Resource "b" "green" unchanged]
  = Some 1%nat.
Proof.
  intros o.
  assert (Hl : Forall (λ r, state r = unchanged) (resourceList o)) by compute_done.
  assert (Hc : sample_color ("b", "green") ≠ "blue") by discriminate.
  destruct (X5_update_recolors_one_record "000000" sample sample_key sample_color
              o ("b", "blue") ("b", "green") "b" 1%nat (Resource "b" "blue" unchanged)
              Hl eq_refl eq_refl eq_refl Hc) as (Hup & _ & _ & _ & Hget).
  split; [exact Hl|]. split; [reflexivity|]. split; [exact Hc|].
  split; [exact Hup|exact Hget].
Defined.

Lemma X6_witness :
  let o := Controller 0.5 [Resource "a" "red" unchanged; Resource "b" "blue" unchanged;
                           Resource "c" "green" unchanged] in
  Forall (λ r, state r = unchanged) (resourceList o) ∧
  getResource "a" (resourceList o) = Some 0%nat ∧
  DeleteFunc "000000" sample sample_key o ("a", "red") =
    Ok (Controller 0.5 [Resource "b" "blue" unchanged; Resource "c" "green" unchanged],
        [blinkt_Flash 0 "red" 0.5 2 50000000;
         blinkt_Set 0 "blue" 0.5; blinkt_Set 1 "green" 0.5]
        ++ clear "000000" 2 ++ [blinkt_Show]).
Proof.
  intros o.
  assert (Hl : Forall (λ r, state r = unchanged) (resourceList o)) by compute_done.
  split; [exact Hl|]. split; [reflexivity|].
  exact (proj1 (X6_delete_removes_one_record "000000" sample sample_key o ("a", "red")
                  "a" 0%nat (Resource "a" "red" unchanged) Hl eq_refl eq_refl eq_refl)).
Defined.

Lemma X7_witness :
  let o := Controller 0.5 [Resource "a" "red" unchanged] in
  Forall (λ r, state r = unchanged) (resourceList o) ∧
  ("b" ∉ key <$> resourceList o) ∧
  ∃ cs, run "000000" sample sample_key sample_color o
          [Add sample ("b", "blue"); Delete sample ("b", "blue")] = Ok (o, cs).
Proof.
  intros o.
  assert (Hl : Forall (λ r, state r = unchanged) (resourceList o)) by compute_done.
  assert (Hn : "b" ∉ key <$> resourceList o) by compute_done.
  split; [exact Hl|]. split; [exact Hn|].
  exact (X7_add_then_delete_restores_the_collection "000000" sample sample_key
           sample_color o ("b", "blue") "b" Hl eq_refl Hn).
Defined.

Lemma X8_witness :
  let o := Controller 0.5 [Resource "a" "red" unchanged; Resource "b" "blue" unchanged] in
  Forall (λ r, state r = unchanged) (resourceList o) ∧
  NoDup (key <$> resourceList o) ∧
  ("a" ∈ key <$> resourceList o) ∧
  ∃ o' cs,
    DeleteFunc "000000" sample sample_key o ("a", "red") = Ok (o', cs) ∧
    ("a" ∉ key <$> resourceList o') ∧
    DeleteFunc "000000" sample sample_key o' ("a", "red") = Panic ∧
    UpdateFunc "000000" sample sample_key sample_color o' ("a", "red") ("a", "red")
    = Panic.
Proof.
  intros o.
  assert (Hl : Forall (λ r, state r = unchanged) (resourceList o)) by compute_done.
  assert (Hnd : NoDup (key <$> resourceList o)) by compute_done.
  assert (Hin : "a" ∈ key <$> resourceList o) by compute_done.
  split; [exact Hl|]. split; [exact Hnd|]. split; [exact Hin|].
  exact (X8_delete_twice_panics "000000" sample sample_key sample_color o
           ("a", "red") ("a", "red") "a" Hl Hnd eq_refl Hin).
Defined.

Lemma X9_witness :
  let o := Controller 0.5 [Resource "a" "red" unchanged] in
  Forall (λ r, state r = unchanged) (resourceList o) ∧
  ("a" ∈ key <$> resourceList o) ∧
  ∃ o' cs,
    UpdateFunc "000000" sample sample_key sample_color o ("a", "red") ("a", "blue")
    = Ok (o', cs) ∧
    UpdateFunc "000000" sample sample_key sample_color o' ("a", "blue") ("a", "blue")
    = Ok (o', []).
Proof.
  intros o.
  assert (Hl : Forall (λ r, state r = unchanged) (resourceList o)) by compute_done.
  assert (Hin : "a" ∈ key <$> resourceList o) by compute_done.
  split; [exact Hl|]. split; [exact Hin|].
  exact (X9_update_twice_is_update_once "000000" sample sample_key sample_color o
           ("a", "red") ("a", "blue") ("a", "blue") "a" Hl eq_refl Hin).
Defined.

Lemma X10_witness :
  let o := Controller 0.5 [Resource "a" "red" deleted; Resource "b" "blue" added] in
  ∃ o' cs,
    updateBlinkt "000000" o = Ok (o', cs) ∧
    Forall (expected_call "000000" 0.5 (resourceList o)) cs.
Proof.
  intros o. eexists _, _. split; [apply updateBlinkt_spec|].
  apply (X10_render_calls_stay_on_the_display "000000" o _ _ (updateBlinkt_spec _ o)).
Defined.

Lemma X11_witness :
  ∃ o' cs cs',
    handle "000000" sample sample_key sample_color
      (Controller 0.5 [Resource "a" "red" unchanged]) (Add sample ("b", "blue"))
    = Ok (o', cs) ∧
    cs = cs' ++ [blinkt_Show] ∧ blinkt_Show ∉ cs'.
Proof.
  assert (Hh : handle "000000" sample sample_key sample_color
                 (Controller 0.5 [Resource "a" "red" unchanged])
                 (Add sample ("b", "blue"))
               = Ok (Controller 0.5 [Resource "a" "red" unchanged;
                                      Resource "b" "blue" unchanged],
                     [blinkt_Set 0 "red" 0.5;
                      blinkt_Flash 1 "blue" 0.5 2 50000000; blinkt_Set 1 "blue" 0.5]
                     ++ clear "000000" 2 ++ [blinkt_Show]))
    by (vm_compute; reflexivity).
  destruct (X11_callback_commits_once_and_last "000000" sample sample_key
              sample_color _ _ _ _ Hh) as [Hnil|(cs' & Hcs & Hno)];
    [discriminate Hnil|].
  eexists _, _, cs'. split; [exact Hh|]. split; [exact Hcs|exact Hno].
Defined.

Lemma X12_witness :
  let o := Controller 0.5 [Resource "a" "red" deleted; Resource "b" "blue" added] in
  (∀ d i c b n t j, j ≠ i → buffer (sample_flash d i c b n t) j = buffer d j) ∧
  ∃ o' cs,
    updateBlinkt "000000" o = Ok (o', cs) ∧
    ∀ d j, 0 ≤ j < 8 →
      shown (perform_all sample_flash d cs) j =
      match resourceList o' !! Z.to_nat j with
      | Some r => Pixel (color r) 0.5
      | None => Pixel "000000" 0
      end.
Proof.
  intros o.
  assert (Hloc : ∀ d i c b n t j, j ≠ i →
                   buffer (sample_flash d i c b n t) j = buffer d j).
  { intros d i c b n t j Hj. simpl. by rewrite decide_False. }
  split; [exact Hloc|]. eexists _, _. split; [apply updateBlinkt_spec|].
  apply (X12_committed_frame_shows_the_collection "000000" sample_flash o _ _ Hloc
           (updateBlinkt_spec _ o)).
Defined.

Lemma X13_witness :
  ∃ o cs,
    run "000000" sample sample_key sample_color (NewController 0.5)
        [Add sample ("a", "red"); Add sample ("b", "blue");
         Update sample ("b", "blue") ("b", "green"); Delete sample ("a", "red")]
    = Ok (o, cs) ∧
    brightness o = 0.5%float ∧
    Forall (λ r, state r = unchanged) (resourceList o).
Proof.
  eexists _, _. split; [vm_compute; reflexivity|].
  eapply (X13_between_callbacks_all_records_are_steady "000000" sample sample_key
            sample_color 0.5
            [Add sample ("a", "red"); Add sample ("b", "blue");
             Update sample ("b", "blue") ("b", "green"); Delete sample ("a", "red")]).
  vm_compute. reflexivity.
Defined.

Lemma X14_witness :
  let o := Controller 0.5 (sample_eight ++ [Resource "p8" "blue" unchanged]) in
  Forall (λ r, state r = unchanged) (resourceList o) ∧
  getResource "p2" (resourceList o) = Some 2%nat ∧
  ∃ o' cs,
    DeleteFunc "000000" sample sample_key o ("p2", "red") = Ok (o', cs) ∧
    resourceList o' !! 7%nat = Some (Resource "p8" "blue" unchanged) ∧
    blinkt_Set 7 "blue" 0.5 ∈ cs ∧
    blinkt_Flash 2 "red" 0.5 2 50000000 ∈ cs ∧
    Forall (λ c, match c with
                 | blinkt_Flash i _ _ _ _ => i = 2
                 | _ => True
                 end) cs.
Proof.
  intros o.
  assert (Hl : Forall (λ r, state r = unchanged) (resourceList o)) by compute_done.
  split; [exact Hl|]. split; [reflexivity|].
  exact (X14_delete_brings_the_ninth_record_on_display "000000" sample sample_key o
           ("p2", "red") "p2" 2%nat (Resource "p2" "red" unchanged)
           (Resource "p8" "blue" unchanged) Hl eq_refl eq_refl eq_refl
           ltac:(lia) eq_refl).
Defined.

Lemma X15_witness :
  let o := Controller 0.5 [Resource "a" "red" deleted; Resource "b" "blue" added] in
  let o1 := Controller 0.5 [Resource "b" "blue" unchanged] in
  ∃ cs1,
    updateBlinkt "000000" o = Ok (o1, cs1) ∧
    updateBlinkt "000000" o1 =
    Ok (o1, [blinkt_Set 0 "blue" 0.5] ++ clear "000000" 1 ++ [blinkt_Show]).
Proof.
  intros o o1. eexists. split; [apply updateBlinkt_spec|].
  apply (X15_second_pass_repaints_without_flash "000000" o o1 _
           (updateBlinkt_spec _ o)).
Defined.

Lemma X16_witness :
  let o := Controller 0.5 [Resource "a" "red" unchanged] in
  Forall (λ r, state r = unchanged) (resourceList o) ∧
  getResource "a" (resourceList o) = Some 0%nat ∧
  ∃ o' cs,
    AddFunc "000000" sample sample_key sample_color o ("a", "blue") = Ok (o', cs) ∧
    length (resourceList o') = 2%nat ∧
    (0 < 1)%nat ∧
    getResource "a" (resourceList o') = Some 0%nat ∧
    resourceList o' !! 0%nat = Some (Resource "a" "red" unchanged).
Proof.
  intros o.
  assert (Hl : Forall (λ r, state r = unchanged) (resourceList o)) by compute_done.
  split; [exact Hl|]. split; [reflexivity|].
  exact (X16_add_of_tracked_key_is_shadowed "000000" sample sample_key sample_color
           o ("a", "blue") "a" 0%nat Hl eq_refl eq_refl).
Defined.
